(** * drf_middleware: a shallow embedding of [src/drf_middleware.py]

    The module has three parts: the lazily loaded list of middleware
    classes ([load_middleware_classes], [MIDDLEWARE_CLASSES]), the
    abstract base class [DRFMiddleware], and the view base class
    [MiddlewareEnabledAPIView] whose [initial] and [finalize_response]
    call the hooks.

    Python code is embedded in a state-and-exception monad: a computation
    takes the interpreter state and gives back a result (a value or a
    raised exception) together with the state it leaves behind.  State
    changes made before an exception is raised persist, as in Python. *)

From Stdlib Require Import String List Arith Lia Bool.
Import ListNotations.
Open Scope string_scope.
Open Scope list_scope.

(** ** Values, exceptions and the call log *)

(** Requests and responses are objects: what is passed around is their
    identity; their attributes live in the store. *)
Definition Ref := nat.

Inductive Exc : Type :=
| ImportError (name : string)
| AttributeError (attr : string)
| TypeError (cls : string)
| UserError (code : nat).

Inductive Result (A : Type) : Type :=
| Ok (a : A)
| Raise (e : Exc).
Arguments Ok {A} a.
Arguments Raise {A} e.

(** One entry per call that the shim makes or that is made on its behalf.
    Each is recorded when the call is entered. *)
Inductive Event : Type :=
| EvImport (name : string)
| EvInstantiate (cls : string) (self : nat)
| EvSuperInitial (request : Ref)
| EvProcessRequest (cls : string) (self : nat) (request : Ref)
| EvHandler (request : Ref)
| EvSuperFinalize (request response : Ref)
| EvProcessResponse (cls : string) (self : nat) (request response : Ref).

Definition is_import (name : string) (ev : Event) : bool :=
  match ev with EvImport n => String.eqb n name | _ => false end.

Definition is_instantiate (cls : string) (ev : Event) : bool :=
  match ev with EvInstantiate c _ => String.eqb c cls | _ => false end.

Definition is_pre_hook (ev : Event) : bool :=
  match ev with EvProcessRequest _ _ _ => true | _ => false end.

Definition is_post_hook (ev : Event) : bool :=
  match ev with EvProcessResponse _ _ _ _ => true | _ => false end.

Definition is_hook (ev : Event) : bool := is_pre_hook ev || is_post_hook ev.

Definition is_handler (ev : Event) : bool :=
  match ev with EvHandler _ => true | _ => false end.

(** Events of the request lifecycle proper, as opposed to those of
    resolving the configuration. *)
Definition is_lifecycle (ev : Event) : bool :=
  match ev with
  | EvImport _ | EvInstantiate _ _ => false
  | _ => true
  end.

(** The request an event was called with, when it has one. *)
Definition event_request (ev : Event) : option Ref :=
  match ev with
  | EvImport _ | EvInstantiate _ _ => None
  | EvSuperInitial r | EvProcessRequest _ _ r | EvHandler r
  | EvSuperFinalize r _ | EvProcessResponse _ _ r _ => Some r
  end.

Definition count (p : Event -> bool) (tr : list Event) : nat :=
  length (filter p tr).

(** Python truth value of [self.__middlewares]: [None] and the empty list
    are both false. *)
Definition truthy {A : Type} (o : option (list A)) : bool :=
  match o with
  | Some (_ :: _) => true
  | _ => false
  end.

(** The slice [l[-1:]]: the last element as a list, or the empty list. *)
Definition last_slice {A : Type} (l : list A) : list A :=
  skipn (length l - 1) l.

Section Model.

(** Everything user code can observe and change: attributes of requests,
    responses and middleware objects, logs, counters. *)
Variable Store : Type.

Definition PreHook : Type := nat -> Ref -> Store -> Result Ref * Store.
Definition PostHook : Type :=
  nat -> Ref -> Ref -> Store -> Result Ref * Store.

(** What [import_string] gives back.  [cls_abc] says whether the class
    derives from [DRFMiddleware].  A hook is [Some] when the class defines
    it or inherits a definition other than the abstract one of the base,
    and [None] when it has no such definition. *)
Record PyClass : Type := {
  cls_name : string;
  cls_abc : bool;
  cls_init : nat -> Store -> Result unit * Store;
  cls_process_request : option PreHook;
  cls_process_response : option PostHook
}.

(** A middleware object: its class and its identity. *)
Record MiddlewareObj : Type := {
  inst_class : PyClass;
  inst_self : nat
}.

(** ** class DRFMiddleware(ABC) *)

(** Bodies of the two abstract methods of the base class. *)
Definition DRFMiddleware_process_request : PreHook :=
  fun _ request s => (Ok request, s).

Definition DRFMiddleware_process_response : PostHook :=
  fun _ _ response s => (Ok response, s).

(** [__abstractmethods__] of a class: the abstract methods of the base
    that a subclass has not overridden. *)
Definition abstractmethods (c : PyClass) : list string :=
  if cls_abc c then
    (match cls_process_request c with
     | Some _ => []
     | None => ["process_request"]
     end) ++
    (match cls_process_response c with
     | Some _ => []
     | None => ["process_response"]
     end)
  else [].

(** Attribute lookup of the hooks on an object of class [c]. *)
Definition lookup_process_request (c : PyClass) : option PreHook :=
  match cls_process_request c with
  | Some f => Some f
  | None => if cls_abc c then Some DRFMiddleware_process_request else None
  end.

Definition lookup_process_response (c : PyClass) : option PostHook :=
  match cls_process_response c with
  | Some f => Some f
  | None => if cls_abc c then Some DRFMiddleware_process_response else None
  end.

(** ** Interpreter state *)

Record St : Type := {
  store : Store;
  trace : list Event;
  (** [MIDDLEWARE_CLASSES._wrapped]; [None] while not yet set up *)
  wrapped : option (list PyClass);
  (** [self.__middlewares] of the view *)
  middlewares : option (list MiddlewareObj);
  (** number of middleware objects created so far *)
  allocated : nat
}.

Definition set_store (s : Store) (st : St) : St :=
  {| store := s; trace := trace st; wrapped := wrapped st;
     middlewares := middlewares st; allocated := allocated st |}.

Definition set_trace (tr : list Event) (st : St) : St :=
  {| store := store st; trace := tr; wrapped := wrapped st;
     middlewares := middlewares st; allocated := allocated st |}.

Definition set_wrapped (w : option (list PyClass)) (st : St) : St :=
  {| store := store st; trace := trace st; wrapped := w;
     middlewares := middlewares st; allocated := allocated st |}.

Definition set_middlewares (m : option (list MiddlewareObj)) (st : St) : St :=
  {| store := store st; trace := trace st; wrapped := wrapped st;
     middlewares := m; allocated := allocated st |}.

Definition set_allocated (n : nat) (st : St) : St :=
  {| store := store st; trace := trace st; wrapped := wrapped st;
     middlewares := middlewares st; allocated := n |}.

Definition add_trace (evs : list Event) (st : St) : St :=
  set_trace (trace st ++ evs) st.

(** ** The monad *)

Definition M (A : Type) : Type := St -> Result A * St.

Definition ret {A : Type} (a : A) : M A := fun st => (Ok a, st).

Definition raise {A : Type} (e : Exc) : M A := fun st => (Raise e, st).

Definition bind {A B : Type} (m : M A) (k : A -> M B) : M B :=
  fun st =>
    match m st with
    | (Ok a, st') => k a st'
    | (Raise e, st') => (Raise e, st')
    end.

Notation "x <- m ;; k" := (bind m (fun x => k))
  (at level 61, m at next level, right associativity).
Notation "m ;; k" := (bind m (fun _ => k))
  (at level 61, right associativity).

Definition emit (ev : Event) : M unit :=
  fun st => (Ok tt, add_trace [ev] st).

(** User code runs on the store alone. *)
Definition lift {A : Type} (f : Store -> Result A * Store) : M A :=
  fun st => (fst (f (store st)), set_store (snd (f (store st))) st).

(** A list comprehension [[f x for x in l]]. *)
Fixpoint comprehension {A B : Type} (f : A -> M B) (l : list A)
  : M (list B) :=
  match l with
  | [] => ret []
  | x :: l' => y <- f x ;; ys <- comprehension f l' ;; ret (y :: ys)
  end.

(** ** Environment: settings, importable names, the host framework *)

Record Env : Type := {
  (** [settings.DRF_MIDDLEWARE_CLASSES]; [None] when the setting is absent *)
  DRF_MIDDLEWARE_CLASSES : option (list string);
  (** what each dotted path imports to, if it can be imported *)
  import_table : string -> option PyClass;
  (** [APIView.initial] *)
  super_initial : Ref -> Store -> Result unit * Store;
  (** [APIView.finalize_response] *)
  super_finalize_response : Ref -> Ref -> Store -> Result Ref * Store;
  (** the view's handler method for the request *)
  handler : Ref -> Store -> Result Ref * Store
}.

Variable env : Env.

Definition import_string (name : string) : M PyClass :=
  match import_table env name with
  | Some c => emit (EvImport name) ;; ret c
  | None => raise (ImportError name)
  end.

(** ** load_middleware_classes *)

(** The loop [for class_name in class_names: classes.append(...)]. *)
Fixpoint load_loop (class_names : list string) (classes : list PyClass)
  : M (list PyClass) :=
  match class_names with
  | [] => ret classes
  | class_name :: rest =>
      c <- import_string class_name ;;
      load_loop rest (classes ++ [c])
  end.

Definition load_middleware_classes : M (list PyClass) :=
  match DRF_MIDDLEWARE_CLASSES env with
  | None => raise (AttributeError "DRF_MIDDLEWARE_CLASSES")
  | Some class_names => load_loop class_names []
  end.

(** [MIDDLEWARE_CLASSES = SimpleLazyObject(func=load_middleware_classes)]:
    an access sets the object up on first use and keeps the value; when
    the set-up raises, nothing is kept. *)
Definition MIDDLEWARE_CLASSES : M (list PyClass) :=
  fun st =>
    match wrapped st with
    | Some classes => (Ok classes, st)
    | None =>
        match load_middleware_classes st with
        | (Ok classes, st') => (Ok classes, set_wrapped (Some classes) st')
        | (Raise e, st') => (Raise e, st')
        end
    end.

(** ** MiddlewareClass() *)

(** Calling a class with no arguments: a class with abstract methods left
    is refused; otherwise an object is made and [__init__] runs on it. *)
Definition instantiate (c : PyClass) : M MiddlewareObj :=
  match abstractmethods c with
  | [] =>
      fun st =>
        let self := allocated st in
        let st1 := add_trace [EvInstantiate (cls_name c) self]
                     (set_allocated (S self) st) in
        match lift (cls_init c self) st1 with
        | (Ok _, st2) => (Ok {| inst_class := c; inst_self := self |}, st2)
        | (Raise e, st2) => (Raise e, st2)
        end
  | _ :: _ => raise (TypeError (cls_name c))
  end.

(** ** class MiddlewareEnabledAPIView(APIView) *)

Definition call_process_request (middleware : MiddlewareObj) (request : Ref)
  : M Ref :=
  match lookup_process_request (inst_class middleware) with
  | Some f =>
      emit (EvProcessRequest (cls_name (inst_class middleware))
              (inst_self middleware) request) ;;
      lift (f (inst_self middleware) request)
  | None => raise (AttributeError "process_request")
  end.

Definition call_process_response (middleware : MiddlewareObj)
    (request response : Ref) : M Ref :=
  match lookup_process_response (inst_class middleware) with
  | Some f =>
      emit (EvProcessResponse (cls_name (inst_class middleware))
              (inst_self middleware) request response) ;;
      lift (f (inst_self middleware) request response)
  | None => raise (AttributeError "process_response")
  end.

Definition call_super_initial (request : Ref) : M unit :=
  emit (EvSuperInitial request) ;; lift (super_initial env request).

Definition call_super_finalize_response (request response : Ref) : M Ref :=
  emit (EvSuperFinalize request response) ;;
  lift (super_finalize_response env request response).

Definition call_handler (request : Ref) : M Ref :=
  emit (EvHandler request) ;; lift (handler env request).

(** [__init__]: after the base initialiser, [self.__middlewares = None]. *)
Definition view_init : M unit :=
  fun st => (Ok tt, set_middlewares None st).

Definition initialize_middlewares : M unit :=
  middleware_classes <- MIDDLEWARE_CLASSES ;;
  objs <- comprehension instantiate middleware_classes ;;
  fun st => (Ok tt, set_middlewares (Some objs) st).

(** [for middleware in ...: middleware.process_request(request)]; the
    value each call returns is dropped. *)
Fixpoint for_each_process_request (l : list MiddlewareObj) (request : Ref)
  : M unit :=
  match l with
  | [] => ret tt
  | middleware :: rest =>
      _ <- call_process_request middleware request ;;
      for_each_process_request rest request
  end.

Definition middleware_process_request (request : Ref) : M unit :=
  fun st =>
    if truthy (middlewares st) then
      match middlewares st with
      | Some l => for_each_process_request l request st
      | None => (Ok tt, st)
      end
    else (Ok tt, st).

(** [for middleware in ...: response = middleware.process_response(...)] *)
Fixpoint for_each_process_response (l : list MiddlewareObj)
    (request response : Ref) : M Ref :=
  match l with
  | [] => ret response
  | middleware :: rest =>
      response' <- call_process_response middleware request response ;;
      for_each_process_response rest request response'
  end.

Definition middleware_process_response (request response : Ref) : M Ref :=
  fun st =>
    if truthy (middlewares st) then
      match middlewares st with
      | Some l =>
          for_each_process_response (last_slice l) request response st
      | None => (Ok response, st)
      end
    else (Ok response, st).

Definition initial (request : Ref) : M unit :=
  initialize_middlewares ;;
  call_super_initial request ;;
  middleware_process_request request.

Definition finalize_response (request response : Ref) : M Ref :=
  response' <- call_super_finalize_response request response ;;
  middleware_process_response request response'.

(** ** The host framework around the view *)

(** The framework, which is not part of this repository, calls [initial]
    once for every request it hands to the view.  [rest] stands for what
    it goes on to do with the request once [initial] has returned. *)
Definition one_request (rest : Ref -> M Ref) (request : Ref) : M Ref :=
  initial request ;; rest request.

(** The same view instance taking a sequence of requests, one after the
    other; a request that fails does not stop the ones after it. *)
Fixpoint serve (rest : Ref -> M Ref) (requests : list Ref) (st : St) : St :=
  match requests with
  | [] => st
  | request :: others =>
      serve rest others (snd (one_request rest request st))
  end.

(** What the framework goes on to do in the control flow the spec
    describes (section 2): the wrapped handler, then response
    finalisation. *)
Definition handle_and_finalize (request : Ref) : M Ref :=
  response <- call_handler request ;;
  finalize_response request response.

(** The framework's own two steps, as they run without a middleware
    layer. *)
Definition plain_initial (request : Ref) : M unit :=
  call_super_initial request.

Definition plain_finalize_response (request response : Ref) : M Ref :=
  call_super_finalize_response request response.

(** A state in which nothing has been resolved yet and the view has just
    been constructed. *)
Definition fresh (s : Store) : St :=
  {| store := s; trace := []; wrapped := None; middlewares := None;
     allocated := 0 |}.

End Model.

Arguments cls_name {Store} _.
Arguments cls_abc {Store} _.
Arguments cls_init {Store} _ _ _.
Arguments cls_process_request {Store} _.
Arguments cls_process_response {Store} _.
Arguments inst_class {Store} _.
Arguments inst_self {Store} _.
Arguments store {Store} _.
Arguments trace {Store} _.
Arguments wrapped {Store} _.
Arguments middlewares {Store} _.
Arguments allocated {Store} _.
Arguments ret {Store A} _ _.
Arguments raise {Store A} _ _.
Arguments bind {Store A B} _ _ _.
Arguments emit {Store} _ _.
Arguments lift {Store A} _ _.
Arguments comprehension {Store A B} _ _ _.

(** The event recorded for creating an object, for calling its pre-hook on
    a request and for calling its post-hook on a request and a response. *)
Definition inst_event {Store : Type} (o : MiddlewareObj Store) : Event :=
  EvInstantiate (cls_name (inst_class o)) (inst_self o).

Definition pre_event {Store : Type} (request : Ref) (o : MiddlewareObj Store)
  : Event :=
  EvProcessRequest (cls_name (inst_class o)) (inst_self o) request.

Definition post_event {Store : Type} (request response : Ref)
    (o : MiddlewareObj Store) : Event :=
  EvProcessResponse (cls_name (inst_class o)) (inst_self o) request response.

(** The store the constructors of [objs] leave, each run from the store the
    one before it left, starting from [s]. *)
Fixpoint store_after_inits {Store : Type} (objs : list (MiddlewareObj Store))
    (s : Store) : Store :=
  match objs with
  | [] => s
  | o :: rest =>
      store_after_inits rest
        (snd (cls_init (inst_class o) (inst_self o) s))
  end.

(** The store the pre-hooks of [objs] leave when each is run on [request]
    from the store the one before it left, starting from [s]. *)
Fixpoint store_after_pre_hooks {Store : Type}
    (objs : list (MiddlewareObj Store)) (request : Ref) (s : Store) : Store :=
  match objs with
  | [] => s
  | o :: rest =>
      match lookup_process_request Store (inst_class o) with
      | Some f =>
          store_after_pre_hooks rest request
            (snd (f (inst_self o) request s))
      | None => s
      end
  end.

(** ** Relations between the state before and after a run *)

(** Every run of [m] relates the state it starts in to the one it leaves. *)
Definition keeps {Store A : Type} (R : St Store -> St Store -> Prop)
    (m : M Store A) : Prop :=
  forall st, R st (snd (m st)).

(** The run only appends to the call log, and every entry it appends
    satisfies [P]. *)
Definition extends {Store : Type} (P : Event -> bool) (a b : St Store) : Prop :=
  exists evs, trace b = trace a ++ evs /\ forall ev, In ev evs -> P ev = true.

(** The run leaves the interpreter's own fields alone: the lazy object, the
    view's list and the object counter. *)
Definition same_fields {Store : Type} (a b : St Store) : Prop :=
  wrapped b = wrapped a /\ middlewares b = middlewares a /\
  allocated b = allocated a.

(** What an access to the lazy object logs: the imports on the first
    access, nothing afterwards. *)
Definition import_events {Store : Type} (names : list string) (st : St Store)
  : list Event :=
  match wrapped st with
  | None => map EvImport names
  | Some _ => []
  end.

(** The lazy object is either not set up or holds the resolved classes. *)
Definition registry_consistent {Store : Type} (classes : list (PyClass Store))
    (st : St Store) : Prop :=
  wrapped st = None \/ wrapped st = Some classes.

(** ** Properties of classes and environments used in the statements *)

Section Conditions.

Context {Store : Type}.

(** The class names everything the base class leaves abstract. *)
Definition concrete (c : PyClass Store) : Prop := abstractmethods Store c = [].

Definition init_returns (c : PyClass Store) : Prop :=
  forall self s, fst (cls_init c self s) = Ok tt.

(** Calling the class always gives an object. *)
Definition instantiable (c : PyClass Store) : Prop :=
  concrete c /\ init_returns c.

(** Calling the class never gives an object. *)
Definition never_instantiable (c : PyClass Store) : Prop :=
  forall st, exists e st', instantiate Store c st = (Raise e, st').

Definition pre_hook_returns (c : PyClass Store) : Prop :=
  exists f, lookup_process_request Store c = Some f /\
            forall self request s, exists r, fst (f self request s) = Ok r.

(** [classes] is what the identifiers [names] import to, in order. *)
Definition resolves_to (env : Env Store) (names : list string)
    (classes : list (PyClass Store)) : Prop :=
  Forall2 (fun n c => import_table Store env n = Some c) names classes.

(** An identifier that cannot be imported, or whose class cannot be
    instantiated. *)
Definition unresolvable (env : Env Store) (name : string) : Prop :=
  import_table Store env name = None \/
  exists c, import_table Store env name = Some c /\ never_instantiable c.

(** Two objects whose pre-hooks act alike on every store and raise alike,
    and differ at most in the request object they return. *)
Definition same_pre_effect (o o' : MiddlewareObj Store) : Prop :=
  cls_name (inst_class o) = cls_name (inst_class o') /\
  inst_self o = inst_self o' /\
  match lookup_process_request Store (inst_class o),
        lookup_process_request Store (inst_class o') with
  | Some f, Some f' =>
      forall self request s,
        snd (f self request s) = snd (f' self request s) /\
        match fst (f self request s), fst (f' self request s) with
        | Ok _, Ok _ => True
        | Raise e, Raise e' => e = e'
        | _, _ => False
        end
  | None, None => True
  | _, _ => False
  end.

(** The errors of resolving [names]: the import error of an identifier
    that cannot be imported, or whatever calling one of the imported
    classes raises. *)
Definition resolution_error (env : Env Store) (names : list string) (e : Exc)
  : Prop :=
  (exists n, In n names /\ import_table Store env n = None /\
             e = ImportError n) \/
  (exists n c st1 st2,
      In n names /\ import_table Store env n = Some c /\
      instantiate Store c st1 = (Raise e, st2)).

(** The call was given [request] where it takes a request at all. *)
Definition given_request (request : Ref) (ev : Event) : bool :=
  match event_request ev with
  | Some r => Nat.eqb r request
  | None => true
  end.

(** Over the requests served from a state with an empty call log, every
    configured class is instantiated once in all. *)
Definition instantiated_once (env : Env Store) (rest : Ref -> M Store Ref)
    (names : list string) (requests : list Ref) (st : St Store) : Prop :=
  forall n c,
    In n names -> import_table Store env n = Some c ->
    count (is_instantiate (cls_name c))
      (trace (serve Store env rest requests st)) = 1.

(** What the framework does with a request after [initial] leaves the
    lazy object, the view's list and the object counter alone, and neither
    imports nor instantiates middleware classes. *)
Definition framework_step (rest : Ref -> M Store Ref) : Prop :=
  forall request,
    keeps same_fields (rest request) /\
    keeps (extends is_lifecycle) (rest request).


(** The identities of the objects in the view's list. *)
Definition middleware_ids (st : St Store) : option (list nat) :=
  match middlewares st with
  | Some l => Some (map inst_self l)
  | None => None
  end.

Definition post_hook_returns (c : PyClass Store) : Prop :=
  exists g, lookup_process_response Store c = Some g /\
            forall self request response s,
            exists r, fst (g self request response s) = Ok r.

(** The run leaves the lazy object and the view's list alone. *)
Definition same_view (a b : St Store) : Prop :=
  wrapped b = wrapped a /\ middlewares b = middlewares a.

(** The call log of [n] requests that each import [names] and stop. *)
Fixpoint repeated_imports (names : list string) (n : nat) : list Event :=
  match n with
  | 0 => []
  | S n' => map EvImport names ++ repeated_imports names n'
  end.

End Conditions.

(** ** A worked configuration

    The store is a log of lines written by user code. *)

Module Demo.

Definition Store : Type := list string.

Definition say (line : string) : Store -> Store := fun s => s ++ [line].

Definition obj (c : PyClass Store) (self : nat) : MiddlewareObj Store :=
  {| inst_class := c; inst_self := self |}.

(** Logs the request and hands it back. *)
Definition LogPre : PyClass Store := {|
  cls_name := "LogPre";
  cls_abc := true;
  cls_init := fun _ s => (Ok tt, s);
  cls_process_request :=
    Some (fun _ request s => (Ok request, say "LogPre: request" s));
  cls_process_response :=
    Some (fun _ _ response s => (Ok response, say "LogPre: response" s))
|}.

Definition add_header : PostHook Store :=
  fun _ _ response s => (Ok (response + 1), say "X-Processed: true" s).

(** Its pre-hook returns a different request object; its post-hook returns
    a new response carrying the header. *)
Definition AddHeaderPost : PyClass Store := {|
  cls_name := "AddHeaderPost";
  cls_abc := true;
  cls_init := fun _ s => (Ok tt, s);
  cls_process_request := Some (fun _ request s => (Ok (request + 100), s));
  cls_process_response := Some add_header
|}.

(** The same, with a pre-hook that returns the request it was given. *)
Definition AddHeaderPost' : PyClass Store := {|
  cls_name := "AddHeaderPost";
  cls_abc := true;
  cls_init := fun _ s => (Ok tt, s);
  cls_process_request := Some (fun _ request s => (Ok request, s));
  cls_process_response := Some add_header
|}.

Definition refuse : PreHook Store :=
  fun _ _ s => (Raise (UserError 403), say "Refuse: denied" s).

(** Its pre-hook raises. *)
Definition Refuse : PyClass Store := {|
  cls_name := "Refuse";
  cls_abc := true;
  cls_init := fun _ s => (Ok tt, s);
  cls_process_request := Some refuse;
  cls_process_response := Some (fun _ _ response s => (Ok response, s))
|}.

(** A subclass of the base that leaves [process_response] out. *)
Definition Incomplete : PyClass Store := {|
  cls_name := "Incomplete";
  cls_abc := true;
  cls_init := fun _ s => (Ok tt, s);
  cls_process_request := Some (fun _ request s => (Ok request, s));
  cls_process_response := None
|}.

Definition table (name : string) : option (PyClass Store) :=
  if String.eqb name "app.LogPre" then Some LogPre
  else if String.eqb name "app.AddHeaderPost" then Some AddHeaderPost
  else if String.eqb name "app.Refuse" then Some Refuse
  else if String.eqb name "app.Incomplete" then Some Incomplete
  else None.

Definition env (names : list string) : Env Store := {|
  DRF_MIDDLEWARE_CLASSES := Some names;
  import_table := table;
  super_initial := fun _ s => (Ok tt, say "initial" s);
  super_finalize_response :=
    fun _ response s => (Ok (response + 10), say "finalize" s);
  handler := fun _ s => (Ok 500, say "ok" s)
|}.

Definition two : list string := ["app.LogPre"; "app.AddHeaderPost"].

Definition three : list string :=
  ["app.LogPre"; "app.Refuse"; "app.AddHeaderPost"].

Definition missing : list string := ["app.LogPre"; "app.Nope"].

(** A class that does not derive from the base and defines no hook. *)
Definition Duck : PyClass Store := {|
  cls_name := "Duck";
  cls_abc := false;
  cls_init := fun _ s => (Ok tt, say "Duck: made" s);
  cls_process_request := None;
  cls_process_response := None
|}.


(** The settings module without the setting. *)
Definition env_unset : Env Store := {|
  DRF_MIDDLEWARE_CLASSES := None;
  import_table := table;
  super_initial := fun _ s => (Ok tt, say "initial" s);
  super_finalize_response :=
    fun _ response s => (Ok (response + 10), say "finalize" s);
  handler := fun _ s => (Ok 500, say "ok" s)
|}.

Definition with_incomplete : list string :=
  ["app.LogPre"; "app.Incomplete"; "app.AddHeaderPost"].

(** A process that has resolved nothing, with a view just constructed. *)
Definition st0 : St Store := fresh Store [].

(** After [initialize_middlewares] under [names]. *)
Definition built (names : list string) : St Store :=
  snd (initialize_middlewares Store (env names) st0).

(** After the framework's own [initial] as well. *)
Definition entered (names : list string) (request : Ref) : St Store :=
  snd (call_super_initial Store (env names) request (built names)).

(** After the pre-hooks of [objs] have run on the request. *)
Definition after_pre_hooks (objs : list (MiddlewareObj Store))
    (names : list string) (request : Ref) : St Store :=
  snd (for_each_process_request Store objs request (entered names request)).

(** After the handler has run, before the response is finalised. *)
Definition handled (names : list string) (request : Ref) : St Store :=
  snd (bind (initial Store (env names) request)
         (fun _ => call_handler Store (env names) request) st0).

End Demo.

(** * Reasoning about runs *)

(** ** Relations that every step of a computation keeps *)

Section Keeps.

Context {Store : Type}.
Variable R : St Store -> St Store -> Prop.
Hypothesis R_refl : forall st, R st st.
Hypothesis R_trans : forall a b c, R a b -> R b c -> R a c.

Lemma keeps_ret {A : Type} (a : A) : keeps R (@ret Store A a).
Proof. intros st. apply R_refl. Qed.

Lemma keeps_raise {A : Type} (e : Exc) : keeps R (@raise Store A e).
Proof. intros st. apply R_refl. Qed.

Lemma keeps_bind {A B : Type} (m : M Store A) (k : A -> M Store B) :
  keeps R m -> (forall a, keeps R (k a)) -> keeps R (bind m k).
Proof.
  intros Hm Hk st. unfold bind.
  specialize (Hm st).
  destruct (m st) as [[a | e] st1]; simpl in *.
  - eapply R_trans; [exact Hm | apply Hk].
  - exact Hm.
Qed.

Lemma keeps_comprehension {A B : Type} (f : A -> M Store B) (l : list A) :
  (forall x, keeps R (f x)) -> keeps R (comprehension f l).
Proof.
  intros Hf. induction l as [| x l IH]; simpl.
  - apply keeps_ret.
  - apply keeps_bind; [apply Hf |].
    intros y. apply keeps_bind; [exact IH |].
    intros ys. apply keeps_ret.
Qed.

End Keeps.

Section Runs.

Context {Store : Type}.

Lemma extends_refl (P : Event -> bool) (st : St Store) : extends P st st.
Proof. exists []. rewrite app_nil_r. split; [reflexivity | intros ev []]. Qed.

Lemma extends_same_trace (P : Event -> bool) (a b : St Store) :
  trace b = trace a -> extends P a b.
Proof.
  intros H. exists []. rewrite app_nil_r.
  split; [exact H | intros ev []].
Qed.

Lemma extends_trans (P : Event -> bool) (a b c : St Store) :
  extends P a b -> extends P b c -> extends P a c.
Proof.
  intros [e1 [H1 F1]] [e2 [H2 F2]]. exists (e1 ++ e2). split.
  - rewrite H2, H1, app_assoc. reflexivity.
  - intros ev Hin. apply in_app_or in Hin. destruct Hin; auto.
Qed.

Lemma extends_count_zero (P p : Event -> bool) (a b : St Store) :
  (forall ev, P ev = true -> p ev = false) ->
  extends P a b -> count p (trace b) = count p (trace a).
Proof.
  intros Hp [evs [H F]]. unfold count. rewrite H, filter_app, length_app.
  assert (Hnil : filter p evs = []).
  { clear H. induction evs as [| ev evs IH]; simpl; [reflexivity |].
    rewrite (Hp ev) by (apply F; left; reflexivity).
    apply IH. intros ev' Hin. apply F. right. exact Hin. }
  rewrite Hnil. simpl. lia.
Qed.

Lemma extends_negb_count (p : Event -> bool) (a b : St Store) :
  extends (fun ev => negb (p ev)) a b -> count p (trace b) = count p (trace a).
Proof.
  apply extends_count_zero. intros ev H. apply negb_true_iff in H. exact H.
Qed.

Lemma same_fields_refl (st : St Store) : same_fields st st.
Proof. repeat split. Qed.

Lemma same_fields_trans (a b c : St Store) :
  same_fields a b -> same_fields b c -> same_fields a c.
Proof.
  intros [H1 [H2 H3]] [H4 [H5 H6]].
  repeat split; congruence.
Qed.

(** *** Primitive steps *)

Lemma extends_ret (P : Event -> bool) {A : Type} (a : A) :
  keeps (extends P) (@ret Store A a).
Proof. apply keeps_ret, extends_refl. Qed.

Lemma extends_raise (P : Event -> bool) {A : Type} (e : Exc) :
  keeps (extends P) (@raise Store A e).
Proof. apply keeps_raise, extends_refl. Qed.

Lemma extends_bind (P : Event -> bool) {A B : Type}
    (m : M Store A) (k : A -> M Store B) :
  keeps (extends P) m -> (forall a, keeps (extends P) (k a)) ->
  keeps (extends P) (bind m k).
Proof. apply keeps_bind, extends_trans. Qed.

Lemma extends_emit (P : Event -> bool) (ev : Event) :
  P ev = true -> keeps (extends P) (@emit Store ev).
Proof.
  intros HP st. exists [ev]. split; [reflexivity |].
  intros ev' [<- | []]. exact HP.
Qed.

Lemma extends_lift (P : Event -> bool) {A : Type}
    (f : Store -> Result A * Store) : keeps (extends P) (lift f).
Proof.
  intros st. exists []. simpl. rewrite app_nil_r.
  split; [reflexivity | intros ev []].
Qed.

Lemma same_fields_ret {A : Type} (a : A) :
  keeps same_fields (@ret Store A a).
Proof. apply keeps_ret, same_fields_refl. Qed.

Lemma same_fields_raise {A : Type} (e : Exc) :
  keeps same_fields (@raise Store A e).
Proof. apply keeps_raise, same_fields_refl. Qed.

Lemma same_fields_bind {A B : Type} (m : M Store A) (k : A -> M Store B) :
  keeps same_fields m -> (forall a, keeps same_fields (k a)) ->
  keeps same_fields (bind m k).
Proof. apply keeps_bind, same_fields_trans. Qed.

Lemma same_fields_emit (ev : Event) : keeps same_fields (@emit Store ev).
Proof. intros st. repeat split. Qed.

Lemma same_fields_lift {A : Type} (f : Store -> Result A * Store) :
  keeps same_fields (lift f).
Proof. intros st. repeat split. Qed.

End Runs.

Create HintDb runs.
#[export] Hint Resolve extends_ret extends_raise extends_bind extends_emit
  extends_lift same_fields_ret same_fields_raise same_fields_bind
  same_fields_emit same_fields_lift : runs.

Section Calls.

Context {Store : Type}.
Variable env : Env Store.

(** *** Calls into user code and the framework *)

Lemma call_process_request_extends (P : Event -> bool) o request :
  P (pre_event request o) = true ->
  keeps (extends P) (call_process_request Store o request).
Proof.
  intros HP. unfold call_process_request.
  destruct (lookup_process_request Store (inst_class o)); auto with runs.
Qed.

Lemma call_process_request_same_fields o request :
  keeps same_fields (call_process_request Store o request).
Proof.
  unfold call_process_request.
  destruct (lookup_process_request Store (inst_class o)); auto with runs.
Qed.

Lemma call_process_response_extends (P : Event -> bool) o request response :
  P (post_event request response o) = true ->
  keeps (extends P) (call_process_response Store o request response).
Proof.
  intros HP. unfold call_process_response.
  destruct (lookup_process_response Store (inst_class o)); auto with runs.
Qed.

Lemma call_process_response_same_fields o request response :
  keeps same_fields (call_process_response Store o request response).
Proof.
  unfold call_process_response.
  destruct (lookup_process_response Store (inst_class o)); auto with runs.
Qed.

Lemma call_super_initial_extends (P : Event -> bool) request :
  P (EvSuperInitial request) = true ->
  keeps (extends P) (call_super_initial Store env request).
Proof. intros HP. unfold call_super_initial. auto with runs. Qed.

Lemma call_super_initial_same_fields request :
  keeps same_fields (call_super_initial Store env request).
Proof. unfold call_super_initial. auto with runs. Qed.

Lemma call_super_finalize_response_extends (P : Event -> bool)
    request response :
  P (EvSuperFinalize request response) = true ->
  keeps (extends P) (call_super_finalize_response Store env request response).
Proof. intros HP. unfold call_super_finalize_response. auto with runs. Qed.

Lemma call_super_finalize_response_same_fields request response :
  keeps same_fields (call_super_finalize_response Store env request response).
Proof. unfold call_super_finalize_response. auto with runs. Qed.

Lemma call_handler_extends (P : Event -> bool) request :
  P (EvHandler request) = true ->
  keeps (extends P) (call_handler Store env request).
Proof. intros HP. unfold call_handler. auto with runs. Qed.

Lemma call_handler_same_fields request :
  keeps same_fields (call_handler Store env request).
Proof. unfold call_handler. auto with runs. Qed.

End Calls.

(** ** What each method of the shim appends to the call log *)

Section Methods.

Context {Store : Type}.
Variable env : Env Store.
Variable P : Event -> bool.

Lemma for_each_process_request_extends l request :
  (forall c s, P (EvProcessRequest c s request) = true) ->
  keeps (extends P) (for_each_process_request Store l request).
Proof.
  intros HP. induction l as [| o l IH]; simpl; auto with runs.
  apply extends_bind; [| intros _; exact IH].
  apply call_process_request_extends. apply HP.
Qed.

Lemma for_each_process_request_same_fields l request :
  keeps same_fields (for_each_process_request Store l request).
Proof.
  induction l as [| o l IH]; simpl; auto with runs.
  apply same_fields_bind; [| intros _; exact IH].
  apply call_process_request_same_fields.
Qed.

Lemma for_each_process_response_extends l request response :
  (forall c s r, P (EvProcessResponse c s request r) = true) ->
  keeps (extends P) (for_each_process_response Store l request response).
Proof.
  intros HP. revert response.
  induction l as [| o l IH]; intros response; simpl; auto with runs.
  apply extends_bind; [| intros r; apply IH].
  apply call_process_response_extends. apply HP.
Qed.

Lemma for_each_process_response_same_fields l request response :
  keeps same_fields (for_each_process_response Store l request response).
Proof.
  revert response.
  induction l as [| o l IH]; intros response; simpl; auto with runs.
  apply same_fields_bind; [| intros r; apply IH].
  apply call_process_response_same_fields.
Qed.

Lemma middleware_process_request_extends request :
  (forall c s, P (EvProcessRequest c s request) = true) ->
  keeps (extends P) (middleware_process_request Store request).
Proof.
  intros HP st. unfold middleware_process_request.
  destruct (truthy (middlewares st)); [| apply extends_refl].
  destruct (middlewares st); [| apply extends_refl].
  apply for_each_process_request_extends. exact HP.
Qed.

Lemma middleware_process_request_same_fields request :
  keeps same_fields (middleware_process_request Store request).
Proof.
  intros st. unfold middleware_process_request.
  destruct (truthy (middlewares st)); [| apply same_fields_refl].
  destruct (middlewares st); [| apply same_fields_refl].
  apply for_each_process_request_same_fields.
Qed.

Lemma middleware_process_response_extends request response :
  (forall c s r, P (EvProcessResponse c s request r) = true) ->
  keeps (extends P) (middleware_process_response Store request response).
Proof.
  intros HP st. unfold middleware_process_response.
  destruct (truthy (middlewares st)); [| apply extends_refl].
  destruct (middlewares st); [| apply extends_refl].
  apply for_each_process_response_extends. exact HP.
Qed.

Lemma middleware_process_response_same_fields request response :
  keeps same_fields (middleware_process_response Store request response).
Proof.
  intros st. unfold middleware_process_response.
  destruct (truthy (middlewares st)); [| apply same_fields_refl].
  destruct (middlewares st); [| apply same_fields_refl].
  apply for_each_process_response_same_fields.
Qed.

Lemma finalize_response_extends request response :
  (forall r, P (EvSuperFinalize request r) = true) ->
  (forall c s r, P (EvProcessResponse c s request r) = true) ->
  keeps (extends P) (finalize_response Store env request response).
Proof.
  intros H1 H2. unfold finalize_response.
  apply extends_bind.
  - apply call_super_finalize_response_extends. apply H1.
  - intros r. apply middleware_process_response_extends. exact H2.
Qed.

Lemma finalize_response_same_fields request response :
  keeps same_fields (finalize_response Store env request response).
Proof.
  unfold finalize_response. apply same_fields_bind.
  - apply call_super_finalize_response_same_fields.
  - intros r. apply middleware_process_response_same_fields.
Qed.

Lemma import_string_extends name :
  (forall n, P (EvImport n) = true) ->
  keeps (extends P) (import_string Store env name).
Proof.
  intros HP. unfold import_string.
  destruct (import_table Store env name); auto with runs.
Qed.

Lemma load_loop_extends names acc :
  (forall n, P (EvImport n) = true) ->
  keeps (extends P) (load_loop Store env names acc).
Proof.
  intros HP. revert acc.
  induction names as [| n names IH]; intros acc; simpl; auto with runs.
  apply extends_bind; [apply import_string_extends; exact HP |].
  intros c. apply IH.
Qed.

Lemma MIDDLEWARE_CLASSES_extends :
  (forall n, P (EvImport n) = true) ->
  keeps (extends P) (MIDDLEWARE_CLASSES Store env).
Proof.
  intros HP st. unfold MIDDLEWARE_CLASSES.
  destruct (wrapped st); [apply extends_refl |].
  assert (H : extends P st (snd (load_middleware_classes Store env st))).
  { unfold load_middleware_classes.
    destruct (DRF_MIDDLEWARE_CLASSES Store env).
    - apply load_loop_extends. exact HP.
    - apply extends_refl. }
  destruct (load_middleware_classes Store env st) as [[cs | e] st1];
    exact H.
Qed.

Lemma instantiate_extends c :
  (forall n s, P (EvInstantiate n s) = true) ->
  keeps (extends P) (instantiate Store c).
Proof.
  intros HP st. unfold instantiate.
  destruct (abstractmethods Store c); [| apply extends_refl].
  simpl.
  destruct (fst (cls_init c (allocated st) (store st))); simpl;
    (exists [EvInstantiate (cls_name c) (allocated st)];
     split; [reflexivity | intros ev [<- | []]; apply HP]).
Qed.

Lemma initialize_middlewares_extends :
  (forall n, P (EvImport n) = true) ->
  (forall n s, P (EvInstantiate n s) = true) ->
  keeps (extends P) (initialize_middlewares Store env).
Proof.
  intros H1 H2. unfold initialize_middlewares.
  apply extends_bind; [apply MIDDLEWARE_CLASSES_extends; exact H1 |].
  intros cs. apply extends_bind.
  - apply keeps_comprehension;
      [apply extends_refl | apply extends_trans |].
    intros c. apply instantiate_extends. exact H2.
  - intros objs st. apply extends_same_trace. reflexivity.
Qed.

Lemma initial_extends request :
  (forall n, P (EvImport n) = true) ->
  (forall n s, P (EvInstantiate n s) = true) ->
  P (EvSuperInitial request) = true ->
  (forall c s, P (EvProcessRequest c s request) = true) ->
  keeps (extends P) (initial Store env request).
Proof.
  intros H1 H2 H3 H4. unfold initial.
  apply extends_bind; [apply initialize_middlewares_extends; assumption |].
  intros _. apply extends_bind.
  - apply call_super_initial_extends. exact H3.
  - intros _. apply middleware_process_request_extends. exact H4.
Qed.

End Methods.

(** ** Resolving the configuration *)

Section Resolution.

Context {Store : Type}.
Variable env : Env Store.

Lemma load_loop_ok names classes :
  resolves_to env names classes ->
  forall acc st,
    load_loop Store env names acc st =
    (Ok (acc ++ classes), add_trace Store (map EvImport names) st).
Proof.
  induction 1 as [| n c names classes Hn _ IH]; intros acc st; simpl.
  - unfold ret, add_trace, set_trace. rewrite !app_nil_r.
    destruct st; reflexivity.
  - unfold bind, import_string. rewrite Hn.
    unfold bind, emit, ret. rewrite IH.
    rewrite <- app_assoc. simpl.
    unfold add_trace, set_trace. simpl.
    rewrite <- app_assoc. reflexivity.
Qed.

Lemma load_loop_fail names :
  (exists n, In n names /\ import_table Store env n = None) ->
  forall acc st,
  exists n st',
    load_loop Store env names acc st = (Raise (ImportError n), st') /\
    In n names /\ import_table Store env n = None /\
    wrapped st' = wrapped st /\ middlewares st' = middlewares st.
Proof.
  induction names as [| n names IH]; intros [bad [Hin Hbad]] acc st.
  - destruct Hin.
  - simpl. unfold bind, import_string.
    destruct (import_table Store env n) as [c |] eqn:Hn.
    + assert (Hrest : exists n', In n' names /\
                                 import_table Store env n' = None).
      { destruct Hin as [-> | Hin]; [congruence |].
        exists bad. split; assumption. }
      unfold bind, emit, ret.
      destruct (IH Hrest (acc ++ [c]) (add_trace Store [EvImport n] st))
        as [n' [st' [Hrun [Hin' [Hnone [Hw Hm]]]]]].
      exists n', st'. rewrite Hrun.
      split; [reflexivity |]. split; [right; exact Hin' |].
      split; [exact Hnone |]. split; [exact Hw | exact Hm].
    + exists n, st. unfold raise.
      split; [reflexivity |]. split; [left; reflexivity |].
      split; [exact Hn |]. split; reflexivity.
Qed.

Lemma instantiate_ok c st :
  instantiable c ->
  instantiate Store c st =
  (Ok {| inst_class := c; inst_self := allocated st |},
   set_store Store (snd (cls_init c (allocated st) (store st)))
     (add_trace Store [EvInstantiate (cls_name c) (allocated st)]
        (set_allocated Store (S (allocated st)) st))).
Proof.
  intros [Hc Hi]. unfold instantiate. rewrite Hc.
  unfold lift. simpl. rewrite Hi. reflexivity.
Qed.

Lemma instantiate_abstract c st :
  abstractmethods Store c <> [] ->
  instantiate Store c st = (Raise (TypeError (cls_name c)), st).
Proof.
  intros H. unfold instantiate.
  destruct (abstractmethods Store c); [congruence | reflexivity].
Qed.

Lemma instantiate_inv c st o st' :
  instantiate Store c st = (Ok o, st') ->
  inst_class o = c /\ concrete c /\ middlewares st' = middlewares st.
Proof.
  unfold instantiate, concrete.
  destruct (abstractmethods Store c); [| discriminate].
  unfold lift. simpl.
  destruct (fst (cls_init c (allocated st) (store st))); [| discriminate].
  intros H. inversion H; subst. simpl. auto.
Qed.

Lemma comprehension_instantiate_ok classes :
  Forall instantiable classes ->
  forall st,
  exists objs st',
    comprehension (instantiate Store) classes st = (Ok objs, st') /\
    map inst_class objs = classes /\
    map inst_self objs = seq (allocated st) (length classes) /\
    trace st' = trace st ++ map inst_event objs /\
    wrapped st' = wrapped st /\ middlewares st' = middlewares st /\
    allocated st' = allocated st + length classes.
Proof.
  induction 1 as [| c classes Hc _ IH]; intros st; simpl.
  - exists [], st. unfold ret. simpl.
    rewrite app_nil_r, Nat.add_0_r. repeat split.
  - unfold bind. rewrite (instantiate_ok c st Hc).
    match goal with
    | |- context [comprehension _ classes ?s] =>
        destruct (IH s) as [objs [st' [Hrun [Hcls [Hself [Htr [Hw [Hm Ha]]]]]]]]
    end.
    rewrite Hrun. unfold ret.
    eexists. exists st'. split; [reflexivity |].
    simpl in *. rewrite Hcls, Hself, Htr, Hw, Hm, Ha.
    rewrite <- app_assoc. simpl.
    repeat split. lia.
Qed.

Lemma comprehension_instantiate_inv classes :
  forall st objs st',
    comprehension (instantiate Store) classes st = (Ok objs, st') ->
    map inst_class objs = classes /\ Forall concrete classes /\
    middlewares st' = middlewares st.
Proof.
  induction classes as [| c classes IH]; intros st objs st'; simpl.
  - unfold ret. intros H. inversion H; subst. auto.
  - unfold bind.
    destruct (instantiate Store c st) as [[o | e] st1] eqn:E1;
      [| discriminate].
    destruct (comprehension (instantiate Store) classes st1)
      as [[os | e] st2] eqn:E2; [| discriminate].
    unfold ret. intros H. inversion H; subst.
    apply instantiate_inv in E1. destruct E1 as [Ho [Hc Hm1]].
    apply IH in E2. destruct E2 as [Hos [Hcs Hm2]].
    simpl. rewrite Ho, Hos. repeat split; [| congruence].
    constructor; assumption.
Qed.

Lemma comprehension_instantiate_fail classes :
  (exists c, In c classes /\ never_instantiable c) ->
  forall st,
  exists e st',
    comprehension (instantiate Store) classes st = (Raise e, st') /\
    middlewares st' = middlewares st /\
    (exists c st1 st2,
        In c classes /\ instantiate Store c st1 = (Raise e, st2)).
Proof.
  induction classes as [| c classes IH]; intros [bad [Hin Hbad]] st.
  - destruct Hin.
  - simpl. unfold bind.
    destruct (instantiate Store c st) as [[o | e] st1] eqn:E1.
    + assert (Hrest : exists c', In c' classes /\ never_instantiable c').
      { destruct Hin as [-> | Hin].
        - destruct (Hbad st) as [e [st' Hr]]. congruence.
        - exists bad. split; assumption. }
      destruct (IH Hrest st1) as [e [st' [Hrun [Hm [c' [sa [sb [Hc' Hr]]]]]]]].
      rewrite Hrun. exists e, st'. split; [reflexivity |]. split.
      * apply instantiate_inv in E1. destruct E1 as [_ [_ Hm1]]. congruence.
      * exists c', sa, sb. split; [right; exact Hc' | exact Hr].
    + exists e, st1. split; [reflexivity |]. split.
      * unfold instantiate in E1.
        destruct (abstractmethods Store c).
        -- unfold lift in E1. simpl in E1.
           destruct (fst (cls_init c (allocated st) (store st)));
             inversion E1; subst; reflexivity.
        -- unfold raise in E1. inversion E1; subst. reflexivity.
      * exists c, st, st1. split; [left; reflexivity | exact E1].
Qed.

End Resolution.

(** ** The lazy object and the view's list *)

Section Initialisation.

Context {Store : Type}.
Variable env : Env Store.
Variable names : list string.
Variable classes : list (PyClass Store).
Hypothesis Hsettings : DRF_MIDDLEWARE_CLASSES Store env = Some names.
Hypothesis Hresolves : resolves_to env names classes.

Lemma MIDDLEWARE_CLASSES_run st :
  registry_consistent classes st ->
  MIDDLEWARE_CLASSES Store env st =
  (Ok classes,
   set_wrapped Store (Some classes) (add_trace Store (import_events names st) st)).
Proof.
  intros [Hw | Hw]; unfold MIDDLEWARE_CLASSES, import_events; rewrite Hw.
  - unfold load_middleware_classes. rewrite Hsettings.
    rewrite (load_loop_ok env names classes Hresolves). reflexivity.
  - unfold add_trace, set_trace, set_wrapped. simpl.
    rewrite app_nil_r. destruct st; simpl in *. subst. reflexivity.
Qed.

Lemma initialize_middlewares_ok st :
  Forall instantiable classes ->
  registry_consistent classes st ->
  exists objs st',
    initialize_middlewares Store env st = (Ok tt, st') /\
    middlewares st' = Some objs /\
    map inst_class objs = classes /\
    map inst_self objs = seq (allocated st) (length classes) /\
    trace st' = trace st ++ import_events names st ++ map inst_event objs /\
    wrapped st' = Some classes /\
    allocated st' = allocated st + length classes.
Proof.
  intros Hinst Hreg. unfold initialize_middlewares, bind.
  rewrite (MIDDLEWARE_CLASSES_run st Hreg).
  match goal with
  | |- context [comprehension _ classes ?s] =>
      destruct (comprehension_instantiate_ok classes Hinst s)
        as [objs [st' [Hrun [Hcls [Hself [Htr [Hw [Hm Ha]]]]]]]]
  end.
  rewrite Hrun. exists objs. eexists. split; [reflexivity |].
  simpl in *. rewrite Htr, Hw, Ha, <- app_assoc.
  repeat split; assumption.
Qed.

Lemma initialize_middlewares_inv st st' :
  registry_consistent classes st ->
  initialize_middlewares Store env st = (Ok tt, st') ->
  exists objs,
    middlewares st' = Some objs /\ map inst_class objs = classes /\
    Forall concrete classes.
Proof.
  intros Hreg. unfold initialize_middlewares, bind.
  rewrite (MIDDLEWARE_CLASSES_run st Hreg).
  match goal with
  | |- context [comprehension _ classes ?s] =>
      destruct (comprehension (instantiate Store) classes s)
        as [[objs | e] st1] eqn:E
  end; [| discriminate].
  intros H. inversion H; subst.
  apply comprehension_instantiate_inv in E. destruct E as [Hcls [Hc _]].
  exists objs. simpl. auto.
Qed.

End Initialisation.

(** ** The two hook loops *)

Section Loops.

Context {Store : Type}.

Lemma last_slice_snoc {A : Type} (front : list A) (x : A) :
  last_slice (front ++ [x]) = [x].
Proof.
  unfold last_slice. rewrite length_app. simpl.
  replace (length front + 1 - 1) with (length front + 0) by lia.
  rewrite skipn_app, Nat.add_0_r, skipn_all.
  replace (length front - length front) with 0 by lia. reflexivity.
Qed.

Lemma middleware_process_request_some (l : list (MiddlewareObj Store))
    request st :
  middlewares st = Some l ->
  middleware_process_request Store request st =
  for_each_process_request Store l request st.
Proof.
  intros H. unfold middleware_process_request. rewrite H.
  destruct l; reflexivity.
Qed.

Lemma middleware_process_response_some (l : list (MiddlewareObj Store))
    request response st :
  middlewares st = Some l ->
  middleware_process_response Store request response st =
  for_each_process_response Store (last_slice l) request response st.
Proof.
  intros H. unfold middleware_process_response. rewrite H.
  destruct l; reflexivity.
Qed.

Lemma call_process_request_run (o : MiddlewareObj Store) request st f :
  lookup_process_request Store (inst_class o) = Some f ->
  call_process_request Store o request st =
  (fst (f (inst_self o) request (store st)),
   set_store Store (snd (f (inst_self o) request (store st)))
     (add_trace Store [pre_event request o] st)).
Proof.
  intros H. unfold call_process_request. rewrite H. reflexivity.
Qed.

Lemma call_process_response_run (o : MiddlewareObj Store)
    request response st g :
  lookup_process_response Store (inst_class o) = Some g ->
  call_process_response Store o request response st =
  (fst (g (inst_self o) request response (store st)),
   set_store Store (snd (g (inst_self o) request response (store st)))
     (add_trace Store [post_event request response o] st)).
Proof.
  intros H. unfold call_process_response. rewrite H. reflexivity.
Qed.

Lemma for_each_process_request_app (l1 l2 : list (MiddlewareObj Store))
    request st :
  for_each_process_request Store (l1 ++ l2) request st =
  bind (for_each_process_request Store l1 request)
       (fun _ => for_each_process_request Store l2 request) st.
Proof.
  revert st. induction l1 as [| o l1 IH]; intros st; simpl.
  - reflexivity.
  - unfold bind.
    destruct (call_process_request Store o request st) as [[r | e] st1];
      [| reflexivity].
    rewrite IH. reflexivity.
Qed.

Lemma for_each_process_request_ok (l : list (MiddlewareObj Store)) request :
  Forall (fun o => pre_hook_returns (inst_class o)) l ->
  forall st,
  exists st',
    for_each_process_request Store l request st = (Ok tt, st') /\
    trace st' = trace st ++ map (pre_event request) l /\
    same_fields st st'.
Proof.
  induction 1 as [| o l Ho _ IH]; intros st; simpl.
  - exists st. unfold ret. rewrite app_nil_r. repeat split.
  - destruct Ho as [f [Hf Hret]].
    unfold bind. rewrite (call_process_request_run o request st f Hf).
    destruct (Hret (inst_self o) request (store st)) as [r Hr].
    rewrite Hr.
    match goal with
    | |- context [for_each_process_request _ l request ?s] =>
        destruct (IH s) as [st' [Hrun [Htr Hsf]]]
    end.
    exists st'. split; [exact Hrun |]. split.
    + rewrite Htr. simpl. rewrite <- app_assoc. reflexivity.
    + destruct Hsf as [H1 [H2 H3]]. simpl in *. repeat split; assumption.
Qed.

Lemma for_each_process_request_returned (l : list (MiddlewareObj Store))
    request :
  forall st st',
    for_each_process_request Store l request st = (Ok tt, st') ->
    trace st' = trace st ++ map (pre_event request) l.
Proof.
  induction l as [| o l IH]; intros st st'; simpl.
  - unfold ret. intros H. inversion H; subst.
    rewrite app_nil_r. reflexivity.
  - unfold bind, call_process_request.
    destruct (lookup_process_request Store (inst_class o)) as [f |];
      [| discriminate].
    unfold bind, emit, lift. simpl.
    destruct (fst (f (inst_self o) request (store st))); [| discriminate].
    intros H. apply IH in H. rewrite H. simpl.
    rewrite <- app_assoc. reflexivity.
Qed.

End Loops.

(** ** Counting entries of the call log *)

Section Counting.

Context {Store : Type}.

Lemma count_app (p : Event -> bool) (l1 l2 : list Event) :
  count p (l1 ++ l2) = count p l1 + count p l2.
Proof. unfold count. rewrite filter_app, length_app. reflexivity. Qed.

Lemma count_imports_of_imports (names : list string) (n : string) :
  count (is_import n) (map EvImport names) = count_occ string_dec names n.
Proof.
  unfold count. induction names as [| x names IH]; simpl; [reflexivity |].
  destruct (string_dec x n) as [-> | Hne].
  - rewrite String.eqb_refl. simpl. rewrite IH. reflexivity.
  - apply String.eqb_neq in Hne. rewrite Hne. exact IH.
Qed.

Lemma count_instantiations_of_imports (names : list string) (cn : string) :
  count (is_instantiate cn) (map EvImport names) = 0.
Proof. unfold count. induction names; simpl; auto. Qed.

Lemma count_imports_of_instantiations (objs : list (MiddlewareObj Store))
    (n : string) :
  count (is_import n) (map inst_event objs) = 0.
Proof. unfold count. induction objs; simpl; auto. Qed.

Lemma count_instantiations_of_instantiations
    (objs : list (MiddlewareObj Store)) (cn : string) :
  count (is_instantiate cn) (map inst_event objs) =
  count_occ string_dec (map cls_name (map inst_class objs)) cn.
Proof.
  unfold count. induction objs as [| o objs IH]; simpl; [reflexivity |].
  destruct (string_dec (cls_name (inst_class o)) cn) as [-> | Hne].
  - rewrite String.eqb_refl. simpl. rewrite IH. reflexivity.
  - apply String.eqb_neq in Hne. rewrite Hne. exact IH.
Qed.

Lemma count_import_events (names : list string) (st : St Store) (n : string) :
  count (is_import n) (import_events names st) =
  match wrapped st with
  | None => count_occ string_dec names n
  | Some _ => 0
  end.
Proof.
  unfold import_events. destruct (wrapped st); [reflexivity |].
  apply count_imports_of_imports.
Qed.

Lemma count_instantiations_of_import_events (names : list string)
    (st : St Store) (cn : string) :
  count (is_instantiate cn) (import_events names st) = 0.
Proof.
  unfold import_events. destruct (wrapped st); [reflexivity |].
  apply count_instantiations_of_imports.
Qed.

End Counting.

(** ** The rest of a request *)

Section Lifecycle.

Context {Store : Type}.
Variable env : Env Store.

Lemma handle_and_finalize_extends (P : Event -> bool) request :
  (forall ev, is_lifecycle ev = true -> P ev = true) ->
  keeps (extends P) (handle_and_finalize Store env request).
Proof.
  intros HP. unfold handle_and_finalize.
  apply extends_bind;
    [apply call_handler_extends; apply HP; reflexivity |].
  intros r. apply finalize_response_extends.
  - intros r'. apply HP. reflexivity.
  - intros c s r'. apply HP. reflexivity.
Qed.

Lemma handle_and_finalize_same_fields request :
  keeps same_fields (handle_and_finalize Store env request).
Proof.
  unfold handle_and_finalize.
  apply same_fields_bind; [apply call_handler_same_fields |].
  intros r. apply finalize_response_same_fields.
Qed.

Lemma handle_and_finalize_is_framework_step :
  framework_step (handle_and_finalize Store env).
Proof.
  intros request. split.
  - apply handle_and_finalize_same_fields.
  - apply handle_and_finalize_extends. auto.
Qed.

Lemma one_request_split (rest : Ref -> M Store Ref) request st :
  one_request Store env rest request st =
  bind (initialize_middlewares Store env)
       (fun _ => bind (call_super_initial Store env request)
          (fun _ => bind (middleware_process_request Store request)
             (fun _ => rest request))) st.
Proof.
  unfold one_request, initial, bind.
  destruct (initialize_middlewares Store env st) as [[u | e] st1];
    [| reflexivity].
  destruct (call_super_initial Store env request st1) as [[u1 | e] st2];
    [| reflexivity].
  destruct (middleware_process_request Store request st2) as [[u2 | e] st3];
    reflexivity.
Qed.

End Lifecycle.

(** ** What the constructors and the pre-hooks do to the store *)

Section Stores.

Context {Store : Type}.
Variable env : Env Store.

Lemma instantiate_store (c : PyClass Store) (st st' : St Store)
    (o : MiddlewareObj Store) :
  instantiate Store c st = (Ok o, st') ->
  store st' = snd (cls_init (inst_class o) (inst_self o) (store st)).
Proof.
  unfold instantiate.
  destruct (abstractmethods Store c); [| discriminate].
  unfold lift. simpl.
  destruct (fst (cls_init c (allocated st) (store st))); [| discriminate].
  intros H. inversion H; subst. reflexivity.
Qed.

Lemma comprehension_instantiate_store (classes : list (PyClass Store)) :
  forall st objs st',
    comprehension (instantiate Store) classes st = (Ok objs, st') ->
    store st' = store_after_inits objs (store st).
Proof.
  induction classes as [| c classes IH]; intros st objs st'; simpl.
  - unfold ret. intros H. inversion H; subst. reflexivity.
  - unfold bind.
    destruct (instantiate Store c st) as [[o | e] st1] eqn:E1;
      [| discriminate].
    destruct (comprehension (instantiate Store) classes st1)
      as [[os | e] st2] eqn:E2; [| discriminate].
    unfold ret. intros H. inversion H; subst.
    apply instantiate_store in E1. apply IH in E2.
    simpl. rewrite <- E1. exact E2.
Qed.

Lemma for_each_process_request_store (l : list (MiddlewareObj Store))
    (request : Ref) :
  forall st st',
    for_each_process_request Store l request st = (Ok tt, st') ->
    store st' = store_after_pre_hooks l request (store st).
Proof.
  induction l as [| o l IH]; intros st st'; simpl.
  - unfold ret. intros H. inversion H; subst. reflexivity.
  - unfold bind, call_process_request.
    destruct (lookup_process_request Store (inst_class o)) as [f |];
      [| discriminate].
    unfold bind, emit, lift. simpl.
    destruct (fst (f (inst_self o) request (store st))); [| discriminate].
    intros H. apply IH in H. exact H.
Qed.

Lemma initialize_middlewares_ok_store
    (names : list string) (classes : list (PyClass Store)) (st : St Store) :
  DRF_MIDDLEWARE_CLASSES Store env = Some names ->
  resolves_to env names classes ->
  Forall instantiable classes ->
  registry_consistent classes st ->
  exists objs st',
    initialize_middlewares Store env st = (Ok tt, st') /\
    middlewares st' = Some objs /\
    map inst_class objs = classes /\
    map inst_self objs = seq (allocated st) (length classes) /\
    trace st' = trace st ++ import_events names st ++ map inst_event objs /\
    store st' = store_after_inits objs (store st).
Proof.
  intros Hs Hr Hinst Hreg. unfold initialize_middlewares, bind.
  rewrite (MIDDLEWARE_CLASSES_run env names classes Hs Hr st Hreg).
  match goal with
  | |- context [comprehension _ classes ?s] =>
      destruct (comprehension_instantiate_ok classes Hinst s)
        as [objs [st' [Hrun [Hcls [Hself [Htr _]]]]]]
  end.
  rewrite Hrun. exists objs. eexists. split; [reflexivity |].
  apply comprehension_instantiate_store in Hrun.
  simpl in *. rewrite Htr, <- app_assoc.
  repeat split; assumption.
Qed.

End Stores.

(** * The claims *)

Section Claims.

Context {Store : Type}.
Variable env : Env Store.

(** C9.  A view whose [__middlewares] is still [None] (as [__init__]
    leaves it): [middleware_process_request] returns without raising and
    changes nothing, and [middleware_process_response] returns the response
    it was given, also changing nothing. *)
Theorem uninitialised_list_makes_both_phases_noops
    (st : St Store) (request response : Ref) :
  middlewares st = None ->
  middleware_process_request Store request st = (Ok tt, st) /\
  middleware_process_response Store request response st = (Ok response, st) /\
  (forall st0, middlewares (snd (view_init Store st0)) = None).
Proof.
  intros H. unfold middleware_process_request, middleware_process_response.
  rewrite H. simpl. repeat split.
Qed.

(** C5.  With an empty configured list: [initial] does what the
    framework's own [initial] does and nothing more, so the request and
    everything else in the store are as the framework left them;
    [finalize_response] returns what the framework's own finalisation
    returns; and neither phase calls a hook. *)
Theorem empty_configuration_is_a_noop
    (st : St Store) (request : Ref) :
  DRF_MIDDLEWARE_CLASSES Store env = Some [] ->
  registry_consistent [] st ->
  let st0 := set_middlewares Store (Some []) (set_wrapped Store (Some []) st) in
  initial Store env request st = plain_initial Store env request st0 /\
  count is_hook (trace (snd (initial Store env request st))) =
  count is_hook (trace st) /\
  forall response st1,
    middlewares st1 = middlewares (snd (initial Store env request st)) ->
    finalize_response Store env request response st1 =
    plain_finalize_response Store env request response st1 /\
    count is_hook
      (trace (snd (finalize_response Store env request response st1))) =
    count is_hook (trace st1).
Proof.
  intros Hs Hreg st0.
  assert (Hinit : initialize_middlewares Store env st = (Ok tt, st0)).
  { unfold initialize_middlewares, bind.
    rewrite (MIDDLEWARE_CLASSES_run env [] [] Hs (Forall2_nil _) st Hreg).
    simpl. unfold ret, st0, add_trace, set_trace, set_wrapped, set_middlewares.
    simpl. destruct Hreg as [Hw | Hw]; unfold import_events; rewrite Hw;
      simpl; rewrite app_nil_r; reflexivity. }
  assert (Hini : initial Store env request st =
                 plain_initial Store env request st0).
  { unfold initial, plain_initial, bind. rewrite Hinit.
    pose proof (call_super_initial_same_fields env request st0)
      as [_ [Hm2 _]].
    destruct (call_super_initial Store env request st0) as [[[] | e] st2];
      [| reflexivity].
    simpl in Hm2. unfold middleware_process_request.
    rewrite Hm2. reflexivity. }
  split; [exact Hini |]. split.
  { rewrite Hini. change (trace st) with (trace st0).
    apply extends_negb_count. unfold plain_initial.
    apply call_super_initial_extends. reflexivity. }
  intros response st1 Hm.
  assert (Hm1 : middlewares st1 = Some []).
  { rewrite Hm, Hini. unfold plain_initial.
    pose proof (call_super_initial_same_fields env request st0)
      as [_ [Hm2 _]].
    rewrite Hm2. reflexivity. }
  assert (Hfin : finalize_response Store env request response st1 =
                 plain_finalize_response Store env request response st1).
  { unfold finalize_response, plain_finalize_response, bind.
    pose proof (call_super_finalize_response_same_fields env request response
                  st1) as [_ [Hm2 _]].
    destruct (call_super_finalize_response Store env request response st1)
      as [[r | e] st2]; [| reflexivity].
    simpl in Hm2. unfold middleware_process_response.
    rewrite Hm2, Hm1. reflexivity. }
  split; [exact Hfin |].
  rewrite Hfin. apply extends_negb_count. unfold plain_finalize_response.
  apply call_super_finalize_response_extends. reflexivity.
Qed.

(** C2.  With a non-empty configured list resolved into the view's list,
    response finalisation calls exactly one post-hook: that of the last
    object, which is an instance of the last configured class.  It is
    called with the request and with the response the framework's
    finalisation returned, and what it returns (or raises) is the outcome
    of [finalize_response]; no post-hook of an earlier object is called. *)
Theorem only_the_last_post_hook_runs
    (names : list string) (classes : list (PyClass Store))
    (st_init st_built st : St Store) (request response : Ref) :
  DRF_MIDDLEWARE_CLASSES Store env = Some names ->
  resolves_to env names classes ->
  names <> [] ->
  registry_consistent classes st_init ->
  initialize_middlewares Store env st_init = (Ok tt, st_built) ->
  middlewares st = middlewares st_built ->
  exists front m,
    middlewares st = Some (front ++ [m]) /\
    map inst_class (front ++ [m]) = classes /\
    forall g response1 s1,
      lookup_process_response Store (inst_class m) = Some g ->
      super_finalize_response Store env request response (store st) =
      (Ok response1, s1) ->
      let out := g (inst_self m) request response1 s1 in
      let st' := snd (finalize_response Store env request response st) in
      finalize_response Store env request response st =
      (fst out,
       set_store Store (snd out)
         (add_trace Store [EvSuperFinalize request response;
                           post_event request response1 m] st)) /\
      filter is_post_hook (trace st') =
      filter is_post_hook (trace st) ++ [post_event request response1 m].
Proof.
  intros Hs Hr Hne Hreg Hinit Hm.
  destruct (initialize_middlewares_inv env names classes Hs Hr st_init
              st_built Hreg Hinit) as [objs [Hobjs [Hcls _]]].
  assert (Hobjs_ne : objs <> []).
  { intros ->. simpl in Hcls. subst classes. inversion Hr. congruence. }
  destruct (exists_last Hobjs_ne) as [front [m ->]].
  exists front, m. rewrite Hm. split; [exact Hobjs |].
  split; [exact Hcls |].
  intros g response1 s1 Hg Hsuper out st'.
  assert (Hrun : finalize_response Store env request response st =
    (fst out,
     set_store Store (snd out)
       (add_trace Store [EvSuperFinalize request response;
                         post_event request response1 m] st))).
  { unfold finalize_response, bind, call_super_finalize_response.
    unfold bind, emit, lift. simpl. rewrite Hsuper. simpl.
    rewrite (middleware_process_response_some (front ++ [m]))
      by (simpl; congruence).
    rewrite last_slice_snoc. simpl. unfold bind.
    rewrite (call_process_response_run m request response1 _ g Hg).
    simpl. fold out.
    unfold add_trace, set_trace, set_store. simpl.
    rewrite <- app_assoc. simpl.
    destruct (fst out); reflexivity. }
  split; [exact Hrun |].
  unfold st'. rewrite Hrun. simpl.
  rewrite filter_app. reflexivity.
Qed.

(** C3.  With the configured identifiers resolving to classes that can be
    instantiated and whose pre-hooks return, and a framework [initial] that
    returns: [initial] returns, the view's list holds one fresh object per
    identifier, in the order of the identifiers, and the pre-hooks called
    are exactly those of these objects, once each and in that order, all
    after the framework's own [initial].  Each pre-hook is run, not just
    logged: the store [initial] leaves is the one obtained by running the
    constructors in order, then the framework's [initial], then the body
    of every pre-hook in order, each on the store the one before left. *)
Theorem pre_hooks_run_once_each_in_declared_order
    (names : list string) (classes : list (PyClass Store))
    (st : St Store) (request : Ref) :
  DRF_MIDDLEWARE_CLASSES Store env = Some names ->
  resolves_to env names classes ->
  Forall instantiable classes ->
  Forall pre_hook_returns classes ->
  (forall s, fst (super_initial Store env request s) = Ok tt) ->
  registry_consistent classes st ->
  exists objs st',
    initial Store env request st = (Ok tt, st') /\
    middlewares st' = Some objs /\
    map inst_class objs = classes /\
    map inst_self objs = seq (allocated st) (length names) /\
    filter is_pre_hook (trace st') =
    filter is_pre_hook (trace st) ++ map (pre_event request) objs /\
    trace st' =
    trace st ++ import_events names st ++ map inst_event objs ++
    [EvSuperInitial request] ++ map (pre_event request) objs /\
    store st' =
    store_after_pre_hooks objs request
      (snd (super_initial Store env request
              (store_after_inits objs (store st)))).
Proof.
  intros Hs Hr Hinst Hpre Hsuper Hreg.
  destruct (initialize_middlewares_ok_store env names classes st Hs Hr
              Hinst Hreg)
    as [objs [st1 [Hinit [Hm [Hcls [Hself [Htr Hstore]]]]]]].
  assert (Hpre' : Forall (fun o => pre_hook_returns (inst_class o)) objs).
  { rewrite <- Hcls in Hpre. rewrite Forall_map in Hpre. exact Hpre. }
  set (st2 := set_store Store (snd (super_initial Store env request (store st1)))
                (add_trace Store [EvSuperInitial request] st1)).
  destruct (for_each_process_request_ok objs request Hpre' st2)
    as [st' [Hloop [Htr' [Hw' [Hm' Ha']]]]].
  exists objs, st'.
  assert (Hrun : initial Store env request st = (Ok tt, st')).
  { unfold initial, bind. rewrite Hinit.
    unfold call_super_initial, bind, emit, lift. simpl.
    rewrite Hsuper. fold st2.
    rewrite (middleware_process_request_some objs) by exact Hm.
    exact Hloop. }
  assert (Hlen : length names = length classes).
  { clear - Hr. induction Hr; simpl; congruence. }
  assert (Hfull : trace st' =
                  trace st ++ import_events names st ++ map inst_event objs ++
                  [EvSuperInitial request] ++ map (pre_event request) objs).
  { rewrite Htr'. simpl. rewrite Htr. rewrite <- !app_assoc. reflexivity. }
  assert (Hst : store st' =
                store_after_pre_hooks objs request
                  (snd (super_initial Store env request
                          (store_after_inits objs (store st))))).
  { rewrite (for_each_process_request_store objs request st2 st' Hloop).
    unfold st2. simpl. rewrite Hstore. reflexivity. }
  split; [exact Hrun |]. split; [rewrite Hm'; exact Hm |].
  split; [exact Hcls |]. split; [rewrite Hlen; exact Hself |].
  split; [| split; [exact Hfull | exact Hst]].
  rewrite Hfull. rewrite !filter_app. f_equal.
  assert (H1 : filter is_pre_hook (import_events names st) = []).
  { unfold import_events. destruct (wrapped st); [reflexivity |].
    clear. induction names; simpl; auto. }
  assert (H2 : filter is_pre_hook (map inst_event objs) = []).
  { clear. induction objs; simpl; auto. }
  assert (H3 : filter is_pre_hook (map (pre_event request) objs) =
               map (pre_event request) objs).
  { clear. induction objs; simpl; congruence. }
  rewrite H1, H2, H3. reflexivity.
Qed.

(** C4.  When the pre-hooks of the objects before position [i] return and
    that of the object at position [i] raises [e]: the loop and [initial]
    end with [e] raised, in the state that pre-hook left, and so does
    [initial] followed by anything, so that nothing the caller would do
    next (the handler in particular) is run; the pre-hooks called are
    those up to position [i] and no later one; no handler call is
    logged. *)
Theorem failing_pre_hook_aborts_the_request
    (st st0 st1 st2 : St Store) (request : Ref)
    (before after : list (MiddlewareObj Store)) (m : MiddlewareObj Store)
    (f : PreHook Store) (e : Exc) :
  initialize_middlewares Store env st = (Ok tt, st0) ->
  call_super_initial Store env request st0 = (Ok tt, st1) ->
  middlewares st1 = Some (before ++ m :: after) ->
  for_each_process_request Store before request st1 = (Ok tt, st2) ->
  lookup_process_request Store (inst_class m) = Some f ->
  fst (f (inst_self m) request (store st2)) = Raise e ->
  let st3 := set_store Store (snd (f (inst_self m) request (store st2)))
               (add_trace Store [pre_event request m] st2) in
  middleware_process_request Store request st1 = (Raise e, st3) /\
  initial Store env request st = (Raise e, st3) /\
  (forall (A : Type) (next : unit -> M Store A),
      bind (initial Store env request) next st = (Raise e, st3)) /\
  trace st3 = trace st1 ++ map (pre_event request) (before ++ [m]) /\
  count is_handler (trace st3) = count is_handler (trace st).
Proof.
  intros Hinit Hsuper Hm Hbefore Hf He st3.
  assert (Hloop : middleware_process_request Store request st1 =
                  (Raise e, st3)).
  { rewrite (middleware_process_request_some _ request st1 Hm).
    rewrite for_each_process_request_app. unfold bind at 1.
    rewrite Hbefore. simpl. unfold bind.
    rewrite (call_process_request_run m request st2 f Hf).
    rewrite He. reflexivity. }
  assert (Hini : initial Store env request st = (Raise e, st3)).
  { unfold initial, bind. rewrite Hinit, Hsuper. exact Hloop. }
  assert (Htr : trace st3 =
                trace st1 ++ map (pre_event request) (before ++ [m])).
  { unfold st3. simpl.
    rewrite (for_each_process_request_returned before request st1 st2 Hbefore).
    rewrite map_app, <- app_assoc. reflexivity. }
  split; [exact Hloop |]. split; [exact Hini |].
  split; [intros A next; unfold bind; rewrite Hini; reflexivity |].
  split; [exact Htr |].
  rewrite Htr, count_app.
  assert (H0 : count is_handler (map (pre_event request) (before ++ [m])) = 0).
  { unfold count. generalize (before ++ [m]). clear.
    induction l; simpl; auto. }
  rewrite H0, Nat.add_0_r.
  pose proof (call_super_initial_extends env (fun ev => negb (is_handler ev))
                request eq_refl st0) as Hx1.
  rewrite Hsuper in Hx1. simpl in Hx1.
  pose proof (initialize_middlewares_extends env
                (fun ev => negb (is_handler ev))
                (fun _ => eq_refl) (fun _ _ => eq_refl) st) as Hx0.
  rewrite Hinit in Hx0. simpl in Hx0.
  apply (extends_count_zero (fun ev => negb (is_handler ev))).
  - intros ev H. apply negb_true_iff in H. exact H.
  - eapply extends_trans; eassumption.
Qed.

(** C10.  In every run of [initial], either no pre-hook is called at all,
    or building the list and the framework's own [initial] both returned
    before the first of them, and the pre-hook loop starts from the state
    the framework's [initial] left.  In every run of [finalize_response],
    either no post-hook is called, or the framework's finalisation
    returned first and the post-hook loop is given the response it
    returned. *)
Theorem hooks_follow_the_framework_steps
    (st : St Store) (request response : Ref) :
  (count is_pre_hook (trace (snd (initial Store env request st))) =
   count is_pre_hook (trace st) \/
   exists st1 s2,
     initialize_middlewares Store env st = (Ok tt, st1) /\
     count is_pre_hook (trace st1) = count is_pre_hook (trace st) /\
     super_initial Store env request (store st1) = (Ok tt, s2) /\
     initial Store env request st =
     middleware_process_request Store request
       (set_store Store s2 (add_trace Store [EvSuperInitial request] st1))) /\
  (count is_post_hook
     (trace (snd (finalize_response Store env request response st))) =
   count is_post_hook (trace st) \/
   exists response1 s1,
     super_finalize_response Store env request response (store st) =
     (Ok response1, s1) /\
     finalize_response Store env request response st =
     middleware_process_response Store request response1
       (set_store Store s1
          (add_trace Store [EvSuperFinalize request response] st))).
Proof.
  split.
  - pose proof (initialize_middlewares_extends env
                  (fun ev => negb (is_pre_hook ev))
                  (fun _ => eq_refl) (fun _ _ => eq_refl) st) as Hx.
    apply extends_negb_count in Hx.
    unfold initial, bind.
    destruct (initialize_middlewares Store env st) as [[[] | e] st1] eqn:Hinit;
      simpl in Hx; [| left; exact Hx].
    unfold call_super_initial, bind, emit, lift. simpl.
    destruct (super_initial Store env request (store st1)) as [[[] | e] s2]
      eqn:Hsuper; simpl.
    + right. exists st1, s2. repeat split; assumption.
    + left. rewrite count_app. unfold count at 2. simpl. lia.
  - unfold finalize_response, bind, call_super_finalize_response.
    unfold bind, emit, lift. simpl.
    destruct (super_finalize_response Store env request response (store st))
      as [[response1 | e] s1] eqn:Hsuper; simpl.
    + right. exists response1, s1. split; reflexivity.
    + left. rewrite count_app. unfold count at 2. simpl. lia.
Qed.

Lemma resolves_or_fails (names : list string) :
  (exists n, In n names /\ import_table Store env n = None) \/
  (exists classes, resolves_to env names classes).
Proof.
  induction names as [| n names IH].
  - right. exists []. constructor.
  - destruct (import_table Store env n) as [c |] eqn:Hn.
    + destruct IH as [[bad [Hin Hbad]] | [classes Hr]].
      * left. exists bad. split; [right; exact Hin | exact Hbad].
      * right. exists (c :: classes). constructor; assumption.
    + left. exists n. split; [left; reflexivity | exact Hn].
Qed.

Lemma resolves_to_in (names : list string) (classes : list (PyClass Store))
    (n : string) :
  resolves_to env names classes -> In n names ->
  exists c, In c classes /\ import_table Store env n = Some c.
Proof.
  induction 1 as [| x c names classes Hx _ IH]; intros Hin.
  - destruct Hin.
  - destruct Hin as [-> | Hin].
    + exists c. split; [left; reflexivity | exact Hx].
    + destruct (IH Hin) as [c' [Hc' Hn]].
      exists c'. split; [right; exact Hc' | exact Hn].
Qed.

Lemma resolves_to_from (names : list string) (classes : list (PyClass Store))
    (c : PyClass Store) :
  resolves_to env names classes -> In c classes ->
  exists n, In n names /\ import_table Store env n = Some c.
Proof.
  induction 1 as [| x c' names classes Hx _ IH]; intros Hin.
  - destruct Hin.
  - destruct Hin as [-> | Hin].
    + exists x. split; [left; reflexivity | exact Hx].
    + destruct (IH Hin) as [n [Hn Hc]].
      exists n. split; [right; exact Hn | exact Hc].
Qed.

Lemma failed_initialisation_ends_the_request (st st' : St Store)
    (request : Ref) (e : Exc) :
  initialize_middlewares Store env st = (Raise e, st') ->
  initial Store env request st = (Raise e, st') /\
  forall (A : Type) (next : unit -> M Store A),
    bind (initial Store env request) next st = (Raise e, st').
Proof.
  intros H. unfold initial, bind. rewrite H. split; reflexivity.
Qed.

(** C6.  When some configured identifier cannot be imported, or names a
    class that cannot be instantiated, the first request on a process that
    has not resolved the list yet fails in [initial] with a resolution
    error, raised to the caller, whatever the caller meant to do next: the
    framework's own [initial], the hooks and the handler are not reached,
    and the view's list is left as it was. *)
Theorem unresolvable_identifier_fails_at_first_access
    (names : list string) (st : St Store) (request : Ref) :
  DRF_MIDDLEWARE_CLASSES Store env = Some names ->
  (exists n, In n names /\ unresolvable env n) ->
  wrapped st = None ->
  exists e st',
    initial Store env request st = (Raise e, st') /\
    (forall (A : Type) (next : unit -> M Store A),
        bind (initial Store env request) next st = (Raise e, st')) /\
    resolution_error env names e /\
    count is_lifecycle (trace st') = count is_lifecycle (trace st) /\
    middlewares st' = middlewares st.
Proof.
  intros Hs [bad [Hin Hbad]] Hw.
  assert (Hinit : exists e st',
             initialize_middlewares Store env st = (Raise e, st') /\
             resolution_error env names e /\
             middlewares st' = middlewares st).
  { destruct (resolves_or_fails names) as [Hfail | [classes Hr]].
    - destruct (load_loop_fail env names Hfail [] st)
        as [n [st' [Hrun [Hn [Hnone [_ Hm]]]]]].
      exists (ImportError n), st'.
      split; [| split; [| exact Hm]].
      + unfold initialize_middlewares, bind, MIDDLEWARE_CLASSES.
        rewrite Hw. unfold load_middleware_classes. rewrite Hs, Hrun.
        reflexivity.
      + left. exists n. repeat split; assumption.
    - destruct (resolves_to_in names classes bad Hr Hin) as [c [Hc Hbc]].
      assert (Hnever : never_instantiable c).
      { destruct Hbad as [Hnone | [c' [Hc' Hnever]]]; [congruence |].
        rewrite Hbc in Hc'. inversion Hc'; subst. exact Hnever. }
      assert (Hreg : registry_consistent classes st) by (left; exact Hw).
      pose (s1 := set_wrapped Store (Some classes)
                    (add_trace Store (import_events names st) st)).
      destruct (comprehension_instantiate_fail classes
                  (ex_intro _ c (conj Hc Hnever)) s1)
        as [e [st' [Hrun [Hm [c' [sa [sb [Hc' Hraise]]]]]]]].
      exists e, st'. split; [| split; [| exact Hm]].
      + unfold initialize_middlewares, bind.
        rewrite (MIDDLEWARE_CLASSES_run env names classes Hs Hr st Hreg).
        fold s1. rewrite Hrun. reflexivity.
      + right. destruct (resolves_to_from names classes c' Hr Hc')
          as [n [Hn Hnc]].
        exists n, c', sa, sb. repeat split; assumption. }
  destruct Hinit as [e [st' [Hinit [Herr Hm]]]].
  destruct (failed_initialisation_ends_the_request st st' request e Hinit)
    as [Hini Hdis].
  exists e, st'. repeat split; try assumption.
  pose proof (initialize_middlewares_extends env
                (fun ev => negb (is_lifecycle ev))
                (fun _ => eq_refl) (fun _ _ => eq_refl) st) as Hx.
  rewrite Hinit in Hx. simpl in Hx.
  apply extends_negb_count. exact Hx.
Qed.


(** C8.  The pre-hook loop drops what each pre-hook returns: two lists of
    objects whose pre-hooks act alike and differ only in the request object
    they return give the same outcome and leave the same state.  And every
    call that [initial] and [finalize_response] make with a request (the
    framework's own steps, each pre-hook, the post-hook) is given the very
    request they were called with; [initial] itself returns no request. *)
Theorem pre_hook_return_value_is_discarded :
  (forall (l l' : list (MiddlewareObj Store)) (request : Ref) (st : St Store),
      Forall2 same_pre_effect l l' ->
      for_each_process_request Store l request st =
      for_each_process_request Store l' request st) /\
  (forall (request response : Ref) (st : St Store),
      extends (given_request request) st
        (snd (initial Store env request st)) /\
      extends (given_request request) st
        (snd (finalize_response Store env request response st))).
Proof.
  split.
  - intros l l' request st H. revert st.
    induction H as [| o o' l l' Ho _ IH]; intros st; simpl; [reflexivity |].
    destruct Ho as [Hname [Hself Hhooks]].
    unfold bind, call_process_request, pre_event.
    destruct (lookup_process_request Store (inst_class o)) as [f |];
      destruct (lookup_process_request Store (inst_class o')) as [f' |];
      try contradiction; [| reflexivity].
    unfold bind, emit, lift. simpl.
    rewrite <- Hname, <- Hself.
    destruct (Hhooks (inst_self o) request (store st)) as [Hsnd Hfst].
    rewrite <- Hsnd.
    destruct (fst (f (inst_self o) request (store st)));
      destruct (fst (f' (inst_self o) request (store st)));
      try contradiction.
    + apply IH.
    + subst. reflexivity.
  - intros request response st. split.
    + apply initial_extends; intros; unfold given_request; simpl;
        try apply Nat.eqb_refl; reflexivity.
    + apply finalize_response_extends; intros; unfold given_request; simpl;
        apply Nat.eqb_refl.
Qed.

Section Serving.

Variable rest : Ref -> M Store Ref.
Variable names : list string.
Variable classes : list (PyClass Store).
Hypothesis Hrest : framework_step rest.
Hypothesis Hsettings : DRF_MIDDLEWARE_CLASSES Store env = Some names.
Hypothesis Hresolves : resolves_to env names classes.
Hypothesis Hinstantiable : Forall instantiable classes.

Lemma lifecycle_is_not_import (n : string) (ev : Event) :
  is_lifecycle ev = true -> is_import n ev = false.
Proof. destruct ev; simpl; congruence. Qed.

Lemma lifecycle_is_not_instantiate (cn : string) (ev : Event) :
  is_lifecycle ev = true -> is_instantiate cn ev = false.
Proof. destruct ev; simpl; congruence. Qed.

Lemma one_request_counts (request : Ref) (st : St Store) :
  registry_consistent classes st ->
  let st' := snd (one_request Store env rest request st) in
  wrapped st' = Some classes /\
  allocated st' = allocated st + length classes /\
  middleware_ids st' = Some (seq (allocated st) (length classes)) /\
  (forall n,
      count (is_import n) (trace st') =
      count (is_import n) (trace st) +
      match wrapped st with
      | None => count_occ string_dec names n
      | Some _ => 0
      end) /\
  (forall cn,
      count (is_instantiate cn) (trace st') =
      count (is_instantiate cn) (trace st) +
      count_occ string_dec (map cls_name classes) cn).
Proof.
  intros Hreg st'.
  destruct (initialize_middlewares_ok env names classes Hsettings Hresolves
              st Hinstantiable Hreg)
    as [objs [st1 [Hinit [Hm [Hcls [Hself [Htr [Hw Ha]]]]]]]].
  set (after := bind (call_super_initial Store env request)
                  (fun _ => bind (middleware_process_request Store request)
                     (fun _ => rest request))).
  assert (Hst' : st' = snd (after st1)).
  { unfold st'. rewrite one_request_split. unfold bind at 1. rewrite Hinit.
    reflexivity. }
  assert (Hfields : keeps same_fields after).
  { unfold after.
    apply same_fields_bind; [apply call_super_initial_same_fields |].
    intros _.
    apply same_fields_bind; [apply middleware_process_request_same_fields |].
    intros _. apply Hrest. }
  assert (Hevents : keeps (extends is_lifecycle) after).
  { unfold after.
    apply extends_bind; [apply call_super_initial_extends; reflexivity |].
    intros _.
    apply extends_bind;
      [apply middleware_process_request_extends; reflexivity |].
    intros _. apply Hrest. }
  destruct (Hfields st1) as [Hw' [Hm' Ha']].
  pose proof (Hevents st1) as Hx.
  rewrite <- Hst' in Hw', Hm', Ha', Hx.
  split; [congruence |]. split; [congruence |]. split.
  { unfold middleware_ids. rewrite Hm', Hm, Hself. reflexivity. }
  split.
  - intros n.
    rewrite (extends_count_zero is_lifecycle (is_import n) st1 st'
               (lifecycle_is_not_import n) Hx).
    rewrite Htr, !count_app, count_import_events,
      count_imports_of_instantiations.
    lia.
  - intros cn.
    rewrite (extends_count_zero is_lifecycle (is_instantiate cn) st1 st'
               (lifecycle_is_not_instantiate cn) Hx).
    rewrite Htr, !count_app, count_instantiations_of_import_events,
      count_instantiations_of_instantiations, Hcls.
    lia.
Qed.

Lemma serve_counts (requests : list Ref) :
  forall st,
    registry_consistent classes st ->
    let st' := serve Store env rest requests st in
    allocated st' = allocated st + length requests * length classes /\
    (requests <> [] ->
     middleware_ids st' =
     Some (seq (allocated st' - length classes) (length classes))) /\
    (forall n,
        count (is_import n) (trace st') =
        count (is_import n) (trace st) +
        match requests, wrapped st with
        | _ :: _, None => count_occ string_dec names n
        | _, _ => 0
        end) /\
    (forall cn,
        count (is_instantiate cn) (trace st') =
        count (is_instantiate cn) (trace st) +
        length requests * count_occ string_dec (map cls_name classes) cn).
Proof.
  induction requests as [| r rs IH]; intros st Hreg; simpl.
  - repeat split; try lia. congruence.
  - destruct (one_request_counts r st Hreg) as [Hw [Ha [Hids [Himp Hinst]]]].
    set (st1 := snd (one_request Store env rest r st)) in *.
    assert (Hreg1 : registry_consistent classes st1) by (right; exact Hw).
    destruct (IH st1 Hreg1) as [Ha' [Hids' [Himp' Hinst']]].
    split; [lia |]. split; [| split].
    + intros _. destruct rs as [| r' rs'].
      * simpl. rewrite Hids, Ha. f_equal. f_equal. lia.
      * apply Hids'. discriminate.
    + intros n. rewrite Himp', Himp, Hw.
      destruct rs; lia.
    + intros cn. rewrite Hinst', Hinst. lia.
Qed.

End Serving.

(** C1, as the code has it.  Over the requests a view instance takes,
    starting in a process that has not resolved the list yet: each
    configured identifier is imported once in all, as often as it is
    listed, since the list of classes is kept after the first access; but
    each class is instantiated once per request, as often as it is listed,
    since [initial] rebuilds the view's list every time, and after the last
    request the list holds the objects made during that request. *)
Theorem classes_imported_once_and_instantiated_per_request
    (rest : Ref -> M Store Ref)
    (names : list string) (classes : list (PyClass Store))
    (requests : list Ref) (st : St Store) :
  framework_step rest ->
  DRF_MIDDLEWARE_CLASSES Store env = Some names ->
  resolves_to env names classes ->
  Forall instantiable classes ->
  wrapped st = None ->
  requests <> [] ->
  let st' := serve Store env rest requests st in
  (forall n,
      count (is_import n) (trace st') =
      count (is_import n) (trace st) + count_occ string_dec names n) /\
  (forall cn,
      count (is_instantiate cn) (trace st') =
      count (is_instantiate cn) (trace st) +
      length requests * count_occ string_dec (map cls_name classes) cn) /\
  allocated st' = allocated st + length requests * length classes /\
  middleware_ids st' =
  Some (seq (allocated st' - length classes) (length classes)).
Proof.
  intros Hrest Hs Hr Hinst Hw Hne st'.
  destruct (serve_counts rest names classes Hrest Hs Hr Hinst requests st
              (or_introl Hw)) as [Ha [Hids [Himp Hcnt]]].
  fold st' in Ha, Hids, Himp, Hcnt.
  split; [| split; [exact Hcnt | split; [exact Ha | exact (Hids Hne)]]].
  intros n. rewrite Himp, Hw. destruct requests; [congruence | reflexivity].
Qed.

End Claims.

(** * Further properties of the module *)

Section Further.

Context {Store : Type}.
Variable env : Env Store.

Lemma add_trace_nil (st : St Store) : add_trace Store [] st = st.
Proof.
  unfold add_trace, set_trace. rewrite app_nil_r. destruct st; reflexivity.
Qed.

Lemma add_trace_add_trace (a b : list Event) (st : St Store) :
  add_trace Store b (add_trace Store a st) = add_trace Store (a ++ b) st.
Proof.
  unfold add_trace, set_trace. simpl. rewrite app_assoc. reflexivity.
Qed.

Lemma load_loop_app (front rest : list string)
    (front_classes : list (PyClass Store)) :
  resolves_to env front front_classes ->
  forall acc st,
    load_loop Store env (front ++ rest) acc st =
    load_loop Store env rest (acc ++ front_classes)
      (add_trace Store (map EvImport front) st).
Proof.
  induction 1 as [| n c front front_classes Hn _ IH]; intros acc st; simpl.
  - rewrite app_nil_r, add_trace_nil. reflexivity.
  - unfold bind at 1. unfold import_string. rewrite Hn.
    unfold bind, emit, ret. rewrite IH.
    rewrite add_trace_add_trace, <- app_assoc. reflexivity.
Qed.

Lemma load_loop_returned (names : list string) :
  forall acc st result st',
    load_loop Store env names acc st = (Ok result, st') ->
    exists classes,
      result = acc ++ classes /\ resolves_to env names classes /\
      st' = add_trace Store (map EvImport names) st.
Proof.
  induction names as [| n names IH]; intros acc st result st'; simpl.
  - unfold ret. intros H. inversion H; subst. exists [].
    rewrite app_nil_r, add_trace_nil. repeat split. constructor.
  - unfold bind, import_string.
    destruct (import_table Store env n) as [c |] eqn:Hn; [| discriminate].
    unfold bind, emit, ret. intros H.
    apply IH in H. destruct H as [classes [Hres [Hr Hst]]].
    exists (c :: classes). split; [| split].
    + rewrite Hres, <- app_assoc. reflexivity.
    + constructor; assumption.
    + rewrite Hst, add_trace_add_trace. reflexivity.
Qed.

(** X1.  When the settings do not define [DRF_MIDDLEWARE_CLASSES], the
    first access to the lazy object raises an attribute error out of
    [initial] and leaves the state exactly as it was; so however many
    requests the view takes, each fails the same way and nothing is ever
    logged, cached or built. *)
Theorem missing_setting_fails_every_request
    (st : St Store) (request : Ref) :
  DRF_MIDDLEWARE_CLASSES Store env = None ->
  wrapped st = None ->
  initial Store env request st =
  (Raise (AttributeError "DRF_MIDDLEWARE_CLASSES"), st) /\
  forall (rest : Ref -> M Store Ref) (requests : list Ref),
    serve Store env rest requests st = st.
Proof.
  intros Hs Hw.
  assert (Hini : forall r, initial Store env r st =
                           (Raise (AttributeError "DRF_MIDDLEWARE_CLASSES"), st)).
  { intros r. unfold initial, bind, initialize_middlewares, bind,
      MIDDLEWARE_CLASSES, load_middleware_classes.
    rewrite Hw, Hs. reflexivity. }
  split; [apply Hini |].
  intros rest requests. induction requests as [| r rs IH]; simpl.
  - reflexivity.
  - unfold one_request, bind. rewrite Hini. simpl. exact IH.
Qed.

(** X2.  With the setting present, [load_middleware_classes] returns a list
    exactly when every identifier can be imported: the list is then the
    imported classes in the order of the identifiers, one per identifier,
    and all the call did was import each identifier in turn. *)
Theorem load_middleware_classes_returns_iff
    (names : list string) (classes : list (PyClass Store))
    (st st' : St Store) :
  DRF_MIDDLEWARE_CLASSES Store env = Some names ->
  (load_middleware_classes Store env st = (Ok classes, st') <->
   resolves_to env names classes /\
   st' = add_trace Store (map EvImport names) st).
Proof.
  intros Hs. unfold load_middleware_classes. rewrite Hs. split.
  - intros H. apply load_loop_returned in H.
    destruct H as [cs [Hres [Hr Hst]]]. simpl in Hres. subst.
    split; [exact Hr | reflexivity].
  - intros [Hr ->]. rewrite (load_loop_ok env names classes Hr). reflexivity.
Qed.

(** X3.  [load_middleware_classes] stops at the first identifier that
    cannot be imported: it raises the import error of that identifier
    after importing the ones before it, and imports none of the ones after
    it.  Reached through the lazy object, the failure leaves the object not
    set up. *)
Theorem load_middleware_classes_stops_at_first_failure
    (front back : list string) (bad : string)
    (front_classes : list (PyClass Store)) (st : St Store) :
  DRF_MIDDLEWARE_CLASSES Store env = Some (front ++ bad :: back) ->
  resolves_to env front front_classes ->
  import_table Store env bad = None ->
  load_middleware_classes Store env st =
  (Raise (ImportError bad), add_trace Store (map EvImport front) st) /\
  (wrapped st = None ->
   MIDDLEWARE_CLASSES Store env st =
   (Raise (ImportError bad), add_trace Store (map EvImport front) st) /\
   wrapped (snd (MIDDLEWARE_CLASSES Store env st)) = None).
Proof.
  intros Hs Hr Hbad.
  assert (Hload : load_middleware_classes Store env st =
                  (Raise (ImportError bad),
                   add_trace Store (map EvImport front) st)).
  { unfold load_middleware_classes. rewrite Hs.
    rewrite (load_loop_app front (bad :: back) front_classes Hr).
    simpl. unfold bind, import_string. rewrite Hbad. reflexivity. }
  split; [exact Hload |].
  intros Hw. unfold MIDDLEWARE_CLASSES. rewrite Hw, Hload.
  split; [reflexivity | exact Hw].
Qed.

(** X4.  A failed resolution is not remembered: when an identifier cannot
    be imported, every request the view takes imports the identifiers
    before it over again and fails, and that is all that happens.  After
    any number of requests the state is the first one with these imports
    logged once per request; what the framework would do after [initial]
    never runs. *)
Theorem failed_import_is_retried_on_every_request
    (front back : list string) (bad : string)
    (front_classes : list (PyClass Store))
    (rest : Ref -> M Store Ref) (requests : list Ref) (st : St Store) :
  DRF_MIDDLEWARE_CLASSES Store env = Some (front ++ bad :: back) ->
  resolves_to env front front_classes ->
  import_table Store env bad = None ->
  wrapped st = None ->
  serve Store env rest requests st =
  add_trace Store (repeated_imports front (length requests)) st.
Proof.
  intros Hs Hr Hbad. revert st.
  induction requests as [| r rs IH]; intros st Hw; simpl.
  - rewrite add_trace_nil. reflexivity.
  - assert (Hone : one_request Store env rest r st =
                   (Raise (ImportError bad),
                    add_trace Store (map EvImport front) st)).
    { unfold one_request, initial, bind, initialize_middlewares, bind,
        MIDDLEWARE_CLASSES, load_middleware_classes.
      rewrite Hw, Hs.
      rewrite (load_loop_app front (bad :: back) front_classes Hr).
      simpl. unfold bind, import_string. rewrite Hbad. reflexivity. }
    rewrite Hone. simpl. rewrite IH by exact Hw.
    rewrite add_trace_add_trace. reflexivity.
Qed.

Lemma same_view_refl (st : St Store) : same_view st st.
Proof. split; reflexivity. Qed.

Lemma same_view_trans (a b c : St Store) :
  same_view a b -> same_view b c -> same_view a c.
Proof. intros [H1 H2] [H3 H4]. split; congruence. Qed.

Lemma instantiate_same_view (c : PyClass Store) :
  keeps same_view (instantiate Store c).
Proof.
  intros st. unfold instantiate.
  destruct (abstractmethods Store c); [| apply same_view_refl].
  unfold lift. simpl.
  destruct (fst (cls_init c (allocated st) (store st))); split; reflexivity.
Qed.

Lemma comprehension_instantiate_same_view (classes : list (PyClass Store)) :
  keeps same_view (comprehension (instantiate Store) classes).
Proof.
  apply keeps_comprehension.
  - apply same_view_refl.
  - apply same_view_trans.
  - apply instantiate_same_view.
Qed.

Lemma load_loop_same_fields (names : list string) :
  forall acc, keeps same_fields (load_loop Store env names acc).
Proof.
  induction names as [| n names IH]; intros acc; simpl; auto with runs.
  apply same_fields_bind; [| intros c; apply IH].
  unfold import_string.
  destruct (import_table Store env n); auto with runs.
Qed.

Lemma MIDDLEWARE_CLASSES_outcome (st : St Store) :
  match MIDDLEWARE_CLASSES Store env st with
  | (Ok classes, st') =>
      wrapped st' = Some classes /\ middlewares st' = middlewares st /\
      allocated st' = allocated st
  | (Raise _, st') =>
      wrapped st' = wrapped st /\ middlewares st' = middlewares st
  end.
Proof.
  unfold MIDDLEWARE_CLASSES.
  destruct (wrapped st) as [classes |] eqn:Hw; [auto |].
  assert (H : same_fields st (snd (load_middleware_classes Store env st))).
  { unfold load_middleware_classes.
    destruct (DRF_MIDDLEWARE_CLASSES Store env).
    - apply load_loop_same_fields.
    - apply same_fields_refl. }
  destruct (load_middleware_classes Store env st) as [[classes | e] st1];
    simpl in H; destruct H as [H1 [H2 H3]].
  - simpl. auto.
  - split; congruence.
Qed.

Lemma instantiate_returned (c : PyClass Store) (st st' : St Store)
    (o : MiddlewareObj Store) :
  instantiate Store c st = (Ok o, st') ->
  inst_class o = c /\ inst_self o = allocated st /\
  allocated st' = S (allocated st).
Proof.
  unfold instantiate.
  destruct (abstractmethods Store c); [| discriminate].
  unfold lift. simpl.
  destruct (fst (cls_init c (allocated st) (store st))); [| discriminate].
  intros H. inversion H; subst. simpl. auto.
Qed.

Lemma comprehension_instantiate_returned (classes : list (PyClass Store)) :
  forall st objs st',
    comprehension (instantiate Store) classes st = (Ok objs, st') ->
    map inst_class objs = classes /\
    map inst_self objs = seq (allocated st) (length classes) /\
    allocated st' = allocated st + length classes.
Proof.
  induction classes as [| c classes IH]; intros st objs st'; simpl.
  - unfold ret. intros H. inversion H; subst. simpl. auto.
  - unfold bind.
    destruct (instantiate Store c st) as [[o | e] st1] eqn:E1;
      [| discriminate].
    destruct (comprehension (instantiate Store) classes st1)
      as [[os | e] st2] eqn:E2; [| discriminate].
    unfold ret. intros H. inversion H; subst.
    apply instantiate_returned in E1. destruct E1 as [Ho [Hid Ha1]].
    apply IH in E2. destruct E2 as [Hcls [Hself Ha]]. simpl.
    rewrite Ho, Hid, Hcls, Hself, Ha, Ha1. repeat split. lia.
Qed.

(** X5.  Once the identifiers resolve, the list of classes is kept by the
    lazy object whatever becomes of the instantiation that follows: after
    [initialize_middlewares], whether it returned or raised, the lazy
    object holds the resolved classes. *)
Theorem class_list_is_kept_even_when_instantiation_fails
    (names : list string) (classes : list (PyClass Store)) (st : St Store) :
  DRF_MIDDLEWARE_CLASSES Store env = Some names ->
  resolves_to env names classes ->
  registry_consistent classes st ->
  wrapped (snd (initialize_middlewares Store env st)) = Some classes.
Proof.
  intros Hs Hr Hreg. unfold initialize_middlewares, bind.
  rewrite (MIDDLEWARE_CLASSES_run env names classes Hs Hr st Hreg).
  match goal with
  | |- context [comprehension _ classes ?s] =>
      pose proof (comprehension_instantiate_same_view classes s) as [Hw _];
      destruct (comprehension (instantiate Store) classes s) as [[objs | e] st1]
  end; simpl in *; exact Hw.
Qed.

(** X6.  A list of classes the lazy object already holds takes precedence
    over the settings: under any settings and any import table, also ones
    in which the setting is absent or names nothing importable, an access
    returns the held classes without importing, and
    [initialize_middlewares] instantiates exactly these. *)
Theorem held_class_list_overrides_the_settings
    (classes : list (PyClass Store)) (st : St Store) :
  wrapped st = Some classes ->
  Forall instantiable classes ->
  MIDDLEWARE_CLASSES Store env st = (Ok classes, st) /\
  exists objs st',
    initialize_middlewares Store env st = (Ok tt, st') /\
    middlewares st' = Some objs /\
    map inst_class objs = classes /\
    trace st' = trace st ++ map inst_event objs.
Proof.
  intros Hw Hinst.
  assert (Hlazy : MIDDLEWARE_CLASSES Store env st = (Ok classes, st)).
  { unfold MIDDLEWARE_CLASSES. rewrite Hw. reflexivity. }
  split; [exact Hlazy |].
  destruct (comprehension_instantiate_ok classes Hinst st)
    as [objs [st1 [Hrun [Hcls [_ [Htr _]]]]]].
  exists objs. eexists.
  unfold initialize_middlewares, bind. rewrite Hlazy, Hrun.
  split; [reflexivity |]. simpl. auto.
Qed.

(** X7.  [initialize_middlewares] replaces the view's list in one step or
    not at all.  When it raises, the list is what it was before the call,
    also when that is the list of an earlier request.  When it returns,
    the list holds one object per class the lazy object holds, in order,
    and these objects are new: their identities are the next ones, none
    of them in use before the call. *)
Theorem initialize_middlewares_replaces_the_list_or_keeps_it
    (st : St Store) :
  match initialize_middlewares Store env st with
  | (Raise _, st') => middlewares st' = middlewares st
  | (Ok _, st') =>
      exists classes objs,
        wrapped st' = Some classes /\
        middlewares st' = Some objs /\
        map inst_class objs = classes /\
        map inst_self objs = seq (allocated st) (length classes)
  end.
Proof.
  unfold initialize_middlewares, bind.
  pose proof (MIDDLEWARE_CLASSES_outcome st) as Hlazy.
  destruct (MIDDLEWARE_CLASSES Store env st) as [[classes | e] st1].
  - destruct Hlazy as [Hw [Hm Ha]].
    pose proof (comprehension_instantiate_same_view classes st1) as [Hw2 Hm2].
    destruct (comprehension (instantiate Store) classes st1)
      as [[objs | e] st2] eqn:E; simpl in *.
    + apply comprehension_instantiate_returned in E.
      destruct E as [Hcls [Hself _]].
      exists classes, objs. rewrite Hw2, Hself, Ha. auto.
    + congruence.
  - destruct Hlazy as [_ Hm]. exact Hm.
Qed.

(** X8.  Instantiation stops at the first class that still has abstract
    methods: the classes before it have been instantiated by then (their
    constructors have run and their objects are lost), the type error
    names the class, no class after it is touched, and the view's list is
    not assigned. *)
Theorem instantiation_stops_at_the_first_abstract_class
    (front back : list (PyClass Store)) (c : PyClass Store) (st : St Store) :
  wrapped st = Some (front ++ c :: back) ->
  Forall instantiable front ->
  abstractmethods Store c <> [] ->
  exists objs st',
    comprehension (instantiate Store) front st = (Ok objs, st') /\
    initialize_middlewares Store env st =
    (Raise (TypeError (cls_name c)), st') /\
    trace st' = trace st ++ map inst_event objs /\
    allocated st' = allocated st + length front /\
    middlewares st' = middlewares st.
Proof.
  intros Hw Hfront Hc.
  destruct (comprehension_instantiate_ok front Hfront st)
    as [objs [st' [Hrun [_ [_ [Htr [_ [Hm Ha]]]]]]]].
  exists objs, st'. split; [exact Hrun |].
  split; [| auto].
  unfold initialize_middlewares, bind, MIDDLEWARE_CLASSES. rewrite Hw.
  assert (Happ : forall l st0 os st1,
             comprehension (instantiate Store) l st0 = (Ok os, st1) ->
             comprehension (instantiate Store) (l ++ c :: back) st0 =
             (Raise (TypeError (cls_name c)), st1)).
  { induction l as [| x l IH]; intros st0 os st1; simpl.
    - unfold ret. intros H. inversion H; subst.
      unfold bind. rewrite (instantiate_abstract c st1 Hc). reflexivity.
    - unfold bind.
      destruct (instantiate Store x st0) as [[o | e] sa]; [| discriminate].
      destruct (comprehension (instantiate Store) l sa) as [[os' | e] sb]
        eqn:E; [| discriminate].
      unfold ret. intros H. inversion H; subst.
      rewrite (IH sa os' st1 E). reflexivity. }
  rewrite (Happ front st objs st' Hrun). reflexivity.
Qed.

Lemma for_each_process_request_prefix (l : list (MiddlewareObj Store))
    (request : Ref) :
  forall st,
  exists k,
    k <= length l /\
    trace (snd (for_each_process_request Store l request st)) =
    trace st ++ map (pre_event request) (firstn k l) /\
    (fst (for_each_process_request Store l request st) = Ok tt ->
     k = length l).
Proof.
  induction l as [| o l IH]; intros st; simpl.
  - exists 0. unfold ret. simpl. rewrite app_nil_r. auto.
  - unfold bind, call_process_request.
    destruct (lookup_process_request Store (inst_class o)) as [f |].
    + unfold bind, emit, lift. simpl.
      destruct (fst (f (inst_self o) request (store st))).
      * match goal with
        | |- context [for_each_process_request _ l request ?s] =>
            destruct (IH s) as [k [Hk [Htr Hok]]]
        end.
        exists (S k). split; [simpl; lia |]. split.
        -- rewrite Htr. simpl. rewrite <- app_assoc. reflexivity.
        -- intros H. rewrite (Hok H). reflexivity.
      * exists 1. simpl. split; [lia |]. split; [reflexivity | discriminate].
    + exists 0. unfold raise. simpl. rewrite app_nil_r.
      split; [lia |]. split; [reflexivity | discriminate].
Qed.

(** X9.  In every run of [middleware_process_request], whether it returns
    or raises, the pre-hooks called are those of the first [k] objects of
    the view's list, once each and in the order of the list, for some [k];
    no object is skipped, called twice or called out of turn, and when the
    call returns [k] is the length of the list. *)
Theorem pre_hook_phase_calls_a_prefix_of_the_list
    (st : St Store) (request : Ref) :
  let l := match middlewares st with Some l => l | None => [] end in
  exists k,
    k <= length l /\
    trace (snd (middleware_process_request Store request st)) =
    trace st ++ map (pre_event request) (firstn k l) /\
    (fst (middleware_process_request Store request st) = Ok tt ->
     k = length l).
Proof.
  intros l.
  assert (H : middleware_process_request Store request st =
              for_each_process_request Store l request st).
  { unfold middleware_process_request, l.
    destruct (middlewares st) as [[| o l'] |]; reflexivity. }
  rewrite H. apply for_each_process_request_prefix.
Qed.

(** X10.  The loader does not check that a configured class derives from
    [DRFMiddleware].  A class that does not, and has no [process_request],
    is instantiated like any other; the mistake only shows when its turn
    comes in the pre-hook loop, where the call raises an attribute error
    without running anything, after the pre-hooks of the objects before
    it have run. *)
Theorem class_outside_the_contract_fails_only_when_called
    (c : PyClass Store) :
  cls_abc c = false ->
  cls_process_request c = None ->
  init_returns c ->
  (forall st, exists st',
      instantiate Store c st =
      (Ok {| inst_class := c; inst_self := allocated st |}, st')) /\
  (forall self request before after st st1,
      for_each_process_request Store before request st = (Ok tt, st1) ->
      for_each_process_request Store
        (before ++ {| inst_class := c; inst_self := self |} :: after)
        request st =
      (Raise (AttributeError "process_request"), st1)).
Proof.
  intros Habc Hnone Hinit. split.
  - intros st. eexists. apply instantiate_ok. split; [| exact Hinit].
    unfold concrete, abstractmethods. rewrite Habc. reflexivity.
  - intros self request before after st st1 Hbefore.
    rewrite for_each_process_request_app. unfold bind at 1.
    rewrite Hbefore. simpl. unfold bind, call_process_request.
    unfold lookup_process_request. simpl. rewrite Hnone, Habc.
    reflexivity.
Qed.

(** X12.  In every run of [middleware_process_response], whether it
    returns or raises, at most one post-hook is called, and if one is, it
    is that of the last object of the view's list, called with the request
    and the response the method was given. *)
Theorem post_hook_phase_calls_at_most_the_last_object
    (st : St Store) (request response : Ref) :
  let st' := snd (middleware_process_response Store request response st) in
  trace st' = trace st \/
  exists front m,
    middlewares st = Some (front ++ [m]) /\
    trace st' = trace st ++ [post_event request response m].
Proof.
  intros st'. unfold st'.
  destruct (middlewares st) as [l |] eqn:Hm.
  - rewrite (middleware_process_response_some l request response st Hm).
    destruct l as [| m front _] using rev_ind; [left; reflexivity |].
    rewrite last_slice_snoc. simpl.
    unfold bind, call_process_response.
    destruct (lookup_process_response Store (inst_class m)) as [g |].
    + right. exists front, m. split; [reflexivity |].
      unfold bind, emit, lift. simpl.
      destruct (fst (g (inst_self m) request response (store st)));
        reflexivity.
    + left. reflexivity.
  - left. unfold middleware_process_response. rewrite Hm. reflexivity.
Qed.

Lemma call_super_initial_run (request : Ref) (st : St Store) :
  call_super_initial Store env request st =
  (fst (super_initial Store env request (store st)),
   set_store Store (snd (super_initial Store env request (store st)))
     (add_trace Store [EvSuperInitial request] st)).
Proof. reflexivity. Qed.

Lemma call_handler_run (request : Ref) (st : St Store) :
  call_handler Store env request st =
  (fst (handler Store env request (store st)),
   set_store Store (snd (handler Store env request (store st)))
     (add_trace Store [EvHandler request] st)).
Proof. reflexivity. Qed.

Lemma call_super_finalize_response_run (request response : Ref)
    (st : St Store) :
  call_super_finalize_response Store env request response st =
  (fst (super_finalize_response Store env request response (store st)),
   set_store Store
     (snd (super_finalize_response Store env request response (store st)))
     (add_trace Store [EvSuperFinalize request response] st)).
Proof. reflexivity. Qed.

(** X11.  A request in which nothing raises runs the whole lifecycle in
    one fixed order: the imports (on the first access only), one
    instantiation per configured class, the framework's [initial], the
    pre-hook of every object in order, the handler, the framework's
    finalisation on the handler's response, and last the post-hook of the
    last object on the finalised response, whose result is the result of
    the request.  The object whose post-hook runs is the one whose
    pre-hook ran last.  [response] is what the handler returns on the store
    the pre-hooks left, [finalized] what the framework's finalisation
    returns for it on the store the handler left, and [final] what the
    post-hook returns for [finalized] on the store the finalisation left;
    the store of the request's final state is the one the post-hook
    left. *)
Theorem successful_request_runs_the_whole_lifecycle
    (names : list string) (classes front : list (PyClass Store))
    (c : PyClass Store) (st : St Store) (request : Ref) :
  DRF_MIDDLEWARE_CLASSES Store env = Some names ->
  resolves_to env names classes ->
  classes = front ++ [c] ->
  Forall instantiable classes ->
  Forall pre_hook_returns classes ->
  post_hook_returns c ->
  (forall s, fst (super_initial Store env request s) = Ok tt) ->
  (forall s, exists r, fst (handler Store env request s) = Ok r) ->
  (forall r s, exists r',
      fst (super_finalize_response Store env request r s) = Ok r') ->
  registry_consistent classes st ->
  exists front_objs m response finalized final st',
    one_request Store env (handle_and_finalize Store env) request st =
    (Ok final, st') /\
    map inst_class (front_objs ++ [m]) = classes /\
    middlewares st' = Some (front_objs ++ [m]) /\
    trace st' =
    trace st ++ import_events names st ++
    map inst_event (front_objs ++ [m]) ++
    [EvSuperInitial request] ++
    map (pre_event request) (front_objs ++ [m]) ++
    [EvHandler request; EvSuperFinalize request response;
     post_event request finalized m] /\
    let entered :=
      store_after_pre_hooks (front_objs ++ [m]) request
        (snd (super_initial Store env request
                (store_after_inits (front_objs ++ [m]) (store st)))) in
    let handled := snd (handler Store env request entered) in
    let finalised :=
      snd (super_finalize_response Store env request response handled) in
    fst (handler Store env request entered) = Ok response /\
    fst (super_finalize_response Store env request response handled) =
    Ok finalized /\
    exists g,
      lookup_process_response Store (inst_class m) = Some g /\
      g (inst_self m) request finalized finalised = (Ok final, store st').
Proof.
  intros Hs Hr Hlast Hinst Hpre Hpost Hsuper Hhandler Hfinal Hreg.
  destruct (initialize_middlewares_ok_store env names classes st Hs Hr
              Hinst Hreg)
    as [objs [st1 [Hinit [Hm [Hcls [_ [Htr1 Hstore1]]]]]]].
  assert (Hne : objs <> []).
  { intros ->. simpl in Hcls. rewrite <- Hcls in Hlast.
    destruct front; discriminate. }
  destruct (exists_last Hne) as [front_objs [m ->]].
  assert (Hmc : inst_class m = c).
  { rewrite Hlast, map_app in Hcls. simpl in Hcls.
    apply app_inj_tail in Hcls. destruct Hcls as [_ H]. exact H. }
  assert (Hpre' : Forall (fun o => pre_hook_returns (inst_class o))
                    (front_objs ++ [m])).
  { rewrite <- Hcls in Hpre. rewrite Forall_map in Hpre. exact Hpre. }
  set (st2 := set_store Store
                (snd (super_initial Store env request (store st1)))
                (add_trace Store [EvSuperInitial request] st1)).
  destruct (for_each_process_request_ok (front_objs ++ [m]) request Hpre' st2)
    as [st3 [Hloop [Htr3 [_ [Hm3 _]]]]].
  assert (Hstore3 : store st3 =
            store_after_pre_hooks (front_objs ++ [m]) request
              (snd (super_initial Store env request
                      (store_after_inits (front_objs ++ [m]) (store st))))).
  { rewrite (for_each_process_request_store _ request st2 st3 Hloop).
    unfold st2. simpl. rewrite Hstore1. reflexivity. }
  destruct (Hhandler (store st3)) as [response Hresp].
  set (st4 := set_store Store (snd (handler Store env request (store st3)))
                (add_trace Store [EvHandler request] st3)).
  destruct (Hfinal response (store st4)) as [finalized Hfin].
  set (st5 := set_store Store
                (snd (super_finalize_response Store env request response
                        (store st4)))
                (add_trace Store [EvSuperFinalize request response] st4)).
  destruct Hpost as [g [Hg Hgret]]. rewrite <- Hmc in Hg.
  destruct (Hgret (inst_self m) request finalized (store st5))
    as [final Hfinalr].
  set (st6 := set_store Store
                (snd (g (inst_self m) request finalized (store st5)))
                (add_trace Store [post_event request finalized m] st5)).
  exists front_objs, m, response, finalized, final, st6.
  assert (Hm5 : middlewares st5 = Some (front_objs ++ [m])).
  { simpl. rewrite Hm3. simpl. exact Hm. }
  split.
  { unfold one_request, initial, bind. rewrite Hinit.
    rewrite call_super_initial_run, Hsuper. fold st2.
    rewrite (middleware_process_request_some (front_objs ++ [m]))
      by exact Hm.
    rewrite Hloop.
    unfold handle_and_finalize, bind.
    rewrite call_handler_run, Hresp. fold st4.
    unfold finalize_response, bind.
    rewrite call_super_finalize_response_run, Hfin. fold st5.
    rewrite (middleware_process_response_some (front_objs ++ [m]))
      by exact Hm5.
    rewrite last_slice_snoc.
    unfold for_each_process_response, bind.
    rewrite (call_process_response_run m request finalized st5 g Hg).
    rewrite Hfinalr. reflexivity. }
  split; [exact Hcls |]. split; [exact Hm5 |].
  split.
  { simpl. rewrite Htr3. simpl. rewrite Htr1.
    rewrite <- !app_assoc. reflexivity. }
  cbv zeta. rewrite <- Hstore3.
  split; [exact Hresp |].
  split; [exact Hfin |].
  exists g. split; [exact Hg |].
  change (store st6)
    with (snd (g (inst_self m) request finalized (store st5))).
  rewrite <- Hfinalr. apply surjective_pairing.
Qed.

End Further.

(** * The claims on the worked configuration *)

Section DemoRuns.

Import Demo.

Ltac hook_returns :=
  eexists; split; [reflexivity | intros; eexists; reflexivity].

Lemma uninitialised_list_witness :
  middlewares st0 = None /\
  middleware_process_request Store 1 st0 = (Ok tt, st0) /\
  middleware_process_response Store 1 500 st0 = (Ok 500, st0) /\
  (forall st, middlewares (snd (view_init Store st)) = None).
Proof.
  split; [reflexivity |].
  apply (uninitialised_list_makes_both_phases_noops st0 1 500).
  reflexivity.
Defined.

Lemma empty_configuration_witness :
  DRF_MIDDLEWARE_CLASSES Store (env []) = Some [] /\
  registry_consistent [] st0 /\
  initial Store (env []) 1 st0 =
  plain_initial Store (env []) 1
    (set_middlewares Store (Some []) (set_wrapped Store (Some []) st0)) /\
  count is_hook (trace (snd (initial Store (env []) 1 st0))) =
  count is_hook (trace st0) /\
  forall response st1,
    middlewares st1 = middlewares (snd (initial Store (env []) 1 st0)) ->
    finalize_response Store (env []) 1 response st1 =
    plain_finalize_response Store (env []) 1 response st1 /\
    count is_hook
      (trace (snd (finalize_response Store (env []) 1 response st1))) =
    count is_hook (trace st1).
Proof.
  split; [reflexivity |]. split; [left; reflexivity |].
  apply (empty_configuration_is_a_noop (env []) st0 1).
  - reflexivity.
  - left. reflexivity.
Defined.

Lemma only_the_last_post_hook_witness :
  DRF_MIDDLEWARE_CLASSES Store (env two) = Some two /\
  resolves_to (env two) two [LogPre; AddHeaderPost] /\
  two <> [] /\
  registry_consistent [LogPre; AddHeaderPost] st0 /\
  initialize_middlewares Store (env two) st0 = (Ok tt, built two) /\
  middlewares (handled two 1) = middlewares (built two) /\
  exists front m,
    middlewares (handled two 1) = Some (front ++ [m]) /\
    map inst_class (front ++ [m]) = [LogPre; AddHeaderPost] /\
    forall g response1 s1,
      lookup_process_response Store (inst_class m) = Some g ->
      super_finalize_response Store (env two) 1 500 (store (handled two 1)) =
      (Ok response1, s1) ->
      let out := g (inst_self m) 1 response1 s1 in
      let st' := snd (finalize_response Store (env two) 1 500 (handled two 1)) in
      finalize_response Store (env two) 1 500 (handled two 1) =
      (fst out,
       set_store Store (snd out)
         (add_trace Store [EvSuperFinalize 1 500; post_event 1 response1 m]
            (handled two 1))) /\
      filter is_post_hook (trace st') =
      filter is_post_hook (trace (handled two 1)) ++
      [post_event 1 response1 m].
Proof.
  split; [reflexivity |]. split; [repeat constructor |].
  split; [discriminate |]. split; [left; reflexivity |].
  split; [reflexivity |]. split; [reflexivity |].
  apply (only_the_last_post_hook_runs (env two) two [LogPre; AddHeaderPost]
           st0 (built two) (handled two 1) 1 500).
  - reflexivity.
  - repeat constructor.
  - discriminate.
  - left. reflexivity.
  - reflexivity.
  - reflexivity.
Defined.

Lemma pre_hooks_in_declared_order_witness :
  DRF_MIDDLEWARE_CLASSES Store (env two) = Some two /\
  resolves_to (env two) two [LogPre; AddHeaderPost] /\
  Forall instantiable [LogPre; AddHeaderPost] /\
  Forall pre_hook_returns [LogPre; AddHeaderPost] /\
  (forall s, fst (super_initial Store (env two) 1 s) = Ok tt) /\
  registry_consistent [LogPre; AddHeaderPost] st0 /\
  exists objs st',
    initial Store (env two) 1 st0 = (Ok tt, st') /\
    middlewares st' = Some objs /\
    map inst_class objs = [LogPre; AddHeaderPost] /\
    map inst_self objs = seq (allocated st0) (length two) /\
    filter is_pre_hook (trace st') =
    filter is_pre_hook (trace st0) ++ map (pre_event 1) objs /\
    trace st' =
    trace st0 ++ import_events two st0 ++ map inst_event objs ++
    [EvSuperInitial 1] ++ map (pre_event 1) objs /\
    store st' =
    store_after_pre_hooks objs 1
      (snd (super_initial Store (env two) 1
              (store_after_inits objs (store st0)))).
Proof.
  split; [reflexivity |]. split; [repeat constructor |].
  split; [repeat constructor |].
  split; [repeat constructor; hook_returns |].
  split; [reflexivity |]. split; [left; reflexivity |].
  apply (pre_hooks_run_once_each_in_declared_order (env two) two
           [LogPre; AddHeaderPost] st0 1).
  - reflexivity.
  - repeat constructor.
  - repeat constructor.
  - repeat constructor; hook_returns.
  - reflexivity.
  - left. reflexivity.
Defined.

Lemma failing_pre_hook_witness :
  initialize_middlewares Store (env three) st0 = (Ok tt, built three) /\
  call_super_initial Store (env three) 1 (built three) =
  (Ok tt, entered three 1) /\
  middlewares (entered three 1) =
  Some ([obj LogPre 0] ++ obj Refuse 1 :: [obj AddHeaderPost 2]) /\
  for_each_process_request Store [obj LogPre 0] 1 (entered three 1) =
  (Ok tt, after_pre_hooks [obj LogPre 0] three 1) /\
  lookup_process_request Store (inst_class (obj Refuse 1)) = Some refuse /\
  fst (refuse 1 1 (store (after_pre_hooks [obj LogPre 0] three 1))) =
  Raise (UserError 403) /\
  one_request Store (env three) (handle_and_finalize Store (env three)) 1 st0 =
  (Raise (UserError 403),
   set_store Store ["initial"; "LogPre: request"; "Refuse: denied"]
     (add_trace Store [pre_event 1 (obj Refuse 1)]
        (after_pre_hooks [obj LogPre 0] three 1))) /\
  count is_handler
    (trace (snd (one_request Store (env three)
                   (handle_and_finalize Store (env three)) 1 st0))) = 0.
Proof.
  split; [reflexivity |]. split; [reflexivity |]. split; [reflexivity |].
  split; [reflexivity |]. split; [reflexivity |]. split; [reflexivity |].
  pose proof (failing_pre_hook_aborts_the_request (env three) st0
                (built three) (entered three 1)
                (after_pre_hooks [obj LogPre 0] three 1)
                1 [obj LogPre 0] [obj AddHeaderPost 2] (obj Refuse 1)
                refuse (UserError 403)
                eq_refl eq_refl eq_refl eq_refl eq_refl eq_refl)
    as [_ [_ [Hnext [_ Hcount]]]].
  unfold one_request.
  rewrite (Hnext Ref (fun _ => handle_and_finalize Store (env three) 1)).
  split; [reflexivity | exact Hcount].
Defined.

Lemma unresolvable_identifier_witness :
  DRF_MIDDLEWARE_CLASSES Store (env missing) = Some missing /\
  (exists n, In n missing /\ unresolvable (env missing) n) /\
  wrapped st0 = None /\
  exists e st',
    initial Store (env missing) 1 st0 = (Raise e, st') /\
    (forall (A : Type) (next : unit -> M Store A),
        bind (initial Store (env missing) 1) next st0 = (Raise e, st')) /\
    resolution_error (env missing) missing e /\
    count is_lifecycle (trace st') = count is_lifecycle (trace st0) /\
    middlewares st' = middlewares st0.
Proof.
  assert (Hbad : exists n, In n missing /\ unresolvable (env missing) n).
  { exists "app.Nope". split; [right; left; reflexivity | left; reflexivity]. }
  split; [reflexivity |]. split; [exact Hbad |]. split; [reflexivity |].
  apply (unresolvable_identifier_fails_at_first_access (env missing) missing
           st0 1).
  - reflexivity.
  - exact Hbad.
  - reflexivity.
Defined.


Lemma pre_hook_return_value_witness :
  Forall2 same_pre_effect [obj LogPre 0; obj AddHeaderPost 1]
    [obj LogPre 0; obj AddHeaderPost' 1] /\
  for_each_process_request Store [obj LogPre 0; obj AddHeaderPost 1] 1 st0 =
  for_each_process_request Store [obj LogPre 0; obj AddHeaderPost' 1] 1 st0 /\
  extends (given_request 1) st0 (snd (initial Store (env two) 1 st0)) /\
  extends (given_request 1) (handled two 1)
    (snd (finalize_response Store (env two) 1 500 (handled two 1))).
Proof.
  assert (Hsame : Forall2 same_pre_effect [obj LogPre 0; obj AddHeaderPost 1]
                    [obj LogPre 0; obj AddHeaderPost' 1]).
  { repeat constructor; simpl; intros; split; reflexivity || exact I. }
  split; [exact Hsame |]. split.
  - apply (proj1 (pre_hook_return_value_is_discarded (env two))
             [obj LogPre 0; obj AddHeaderPost 1]
             [obj LogPre 0; obj AddHeaderPost' 1] 1 st0).
    exact Hsame.
  - split.
    + apply (proj2 (pre_hook_return_value_is_discarded (env two)) 1 500 st0).
    + apply (proj2 (pre_hook_return_value_is_discarded (env two)) 1 500
               (handled two 1)).
Defined.

(** C1, as stated, fails: taking two requests under the two-class
    configuration instantiates [LogPre] twice, and the view's list after
    the second request holds other objects than after the first. *)
Lemma instantiated_once_counterexample :
  ~ instantiated_once (env two) (handle_and_finalize Store (env two))
      two [1; 2] st0 /\
  middleware_ids
    (serve Store (env two) (handle_and_finalize Store (env two)) [1] st0) <>
  middleware_ids
    (serve Store (env two) (handle_and_finalize Store (env two)) [1; 2] st0).
Proof.
  split.
  - intros H.
    specialize (H "app.LogPre" LogPre (or_introl eq_refl) eq_refl).
    vm_compute in H. discriminate H.
  - vm_compute. discriminate.
Qed.

Lemma instantiated_per_request_witness :
  framework_step (handle_and_finalize Store (env two)) /\
  DRF_MIDDLEWARE_CLASSES Store (env two) = Some two /\
  resolves_to (env two) two [LogPre; AddHeaderPost] /\
  Forall instantiable [LogPre; AddHeaderPost] /\
  wrapped st0 = None /\
  [1; 2] <> [] /\
  let st' :=
    serve Store (env two) (handle_and_finalize Store (env two)) [1; 2] st0 in
  (forall n,
      count (is_import n) (trace st') =
      count (is_import n) (trace st0) + count_occ string_dec two n) /\
  (forall cn,
      count (is_instantiate cn) (trace st') =
      count (is_instantiate cn) (trace st0) +
      length [1; 2] *
      count_occ string_dec (map cls_name [LogPre; AddHeaderPost]) cn) /\
  allocated st' =
  allocated st0 + length [1; 2] * length [LogPre; AddHeaderPost] /\
  middleware_ids st' =
  Some (seq (allocated st' - length [LogPre; AddHeaderPost])
          (length [LogPre; AddHeaderPost])).
Proof.
  split; [apply handle_and_finalize_is_framework_step |].
  split; [reflexivity |]. split; [repeat constructor |].
  split; [repeat constructor |]. split; [reflexivity |].
  split; [discriminate |].
  apply (classes_imported_once_and_instantiated_per_request (env two)
           (handle_and_finalize Store (env two)) two
           [LogPre; AddHeaderPost] [1; 2] st0).
  - apply handle_and_finalize_is_framework_step.
  - reflexivity.
  - repeat constructor.
  - repeat constructor.
  - reflexivity.
  - discriminate.
Defined.

End DemoRuns.

(** * The further properties on the worked configuration *)

Section FurtherRuns.

Import Demo.

Ltac returns := intros; eexists; reflexivity.

Lemma missing_setting_witness :
  DRF_MIDDLEWARE_CLASSES Store env_unset = None /\
  wrapped st0 = None /\
  initial Store env_unset 1 st0 =
  (Raise (AttributeError "DRF_MIDDLEWARE_CLASSES"), st0) /\
  forall (rest : Ref -> M Store Ref) (requests : list Ref),
    serve Store env_unset rest requests st0 = st0.
Proof.
  split; [reflexivity |]. split; [reflexivity |].
  apply (missing_setting_fails_every_request env_unset st0 1);
    reflexivity.
Defined.

Lemma load_returns_witness :
  DRF_MIDDLEWARE_CLASSES Store (env two) = Some two /\
  (load_middleware_classes Store (env two) st0 =
   (Ok [LogPre; AddHeaderPost], add_trace Store (map EvImport two) st0) <->
   resolves_to (env two) two [LogPre; AddHeaderPost] /\
   add_trace Store (map EvImport two) st0 =
   add_trace Store (map EvImport two) st0).
Proof.
  split; [reflexivity |].
  apply (load_middleware_classes_returns_iff (env two) two
           [LogPre; AddHeaderPost] st0
           (add_trace Store (map EvImport two) st0)).
  reflexivity.
Defined.

Lemma load_stops_witness :
  DRF_MIDDLEWARE_CLASSES Store (env missing) =
  Some (["app.LogPre"] ++ "app.Nope" :: []) /\
  resolves_to (env missing) ["app.LogPre"] [LogPre] /\
  import_table Store (env missing) "app.Nope" = None /\
  load_middleware_classes Store (env missing) st0 =
  (Raise (ImportError "app.Nope"),
   add_trace Store (map EvImport ["app.LogPre"]) st0) /\
  (wrapped st0 = None ->
   MIDDLEWARE_CLASSES Store (env missing) st0 =
   (Raise (ImportError "app.Nope"),
    add_trace Store (map EvImport ["app.LogPre"]) st0) /\
   wrapped (snd (MIDDLEWARE_CLASSES Store (env missing) st0)) = None).
Proof.
  split; [reflexivity |]. split; [repeat constructor |].
  split; [reflexivity |].
  apply (load_middleware_classes_stops_at_first_failure (env missing)
           ["app.LogPre"] [] "app.Nope" [LogPre] st0).
  - reflexivity.
  - repeat constructor.
  - reflexivity.
Defined.

Lemma failed_import_retried_witness :
  DRF_MIDDLEWARE_CLASSES Store (env missing) =
  Some (["app.LogPre"] ++ "app.Nope" :: []) /\
  resolves_to (env missing) ["app.LogPre"] [LogPre] /\
  import_table Store (env missing) "app.Nope" = None /\
  wrapped st0 = None /\
  serve Store (env missing) (handle_and_finalize Store (env missing))
    [1; 2; 3] st0 =
  add_trace Store (repeated_imports ["app.LogPre"] 3) st0.
Proof.
  split; [reflexivity |]. split; [repeat constructor |].
  split; [reflexivity |]. split; [reflexivity |].
  apply (failed_import_is_retried_on_every_request (env missing)
           ["app.LogPre"] [] "app.Nope" [LogPre]
           (handle_and_finalize Store (env missing)) [1; 2; 3] st0).
  - reflexivity.
  - repeat constructor.
  - reflexivity.
  - reflexivity.
Defined.

Lemma class_list_kept_witness :
  DRF_MIDDLEWARE_CLASSES Store (env with_incomplete) = Some with_incomplete /\
  resolves_to (env with_incomplete) with_incomplete
    [LogPre; Incomplete; AddHeaderPost] /\
  registry_consistent [LogPre; Incomplete; AddHeaderPost] st0 /\
  fst (initialize_middlewares Store (env with_incomplete) st0) =
  Raise (TypeError "Incomplete") /\
  wrapped (snd (initialize_middlewares Store (env with_incomplete) st0)) =
  Some [LogPre; Incomplete; AddHeaderPost].
Proof.
  split; [reflexivity |]. split; [repeat constructor |].
  split; [left; reflexivity |]. split; [reflexivity |].
  apply (class_list_is_kept_even_when_instantiation_fails
           (env with_incomplete) with_incomplete
           [LogPre; Incomplete; AddHeaderPost] st0).
  - reflexivity.
  - repeat constructor.
  - left. reflexivity.
Defined.

Lemma held_class_list_witness :
  wrapped (built two) = Some [LogPre; AddHeaderPost] /\
  Forall instantiable [LogPre; AddHeaderPost] /\
  DRF_MIDDLEWARE_CLASSES Store env_unset = None /\
  MIDDLEWARE_CLASSES Store env_unset (built two) =
  (Ok [LogPre; AddHeaderPost], built two) /\
  exists objs st',
    initialize_middlewares Store env_unset (built two) = (Ok tt, st') /\
    middlewares st' = Some objs /\
    map inst_class objs = [LogPre; AddHeaderPost] /\
    trace st' = trace (built two) ++ map inst_event objs.
Proof.
  split; [reflexivity |]. split; [repeat constructor |].
  split; [reflexivity |].
  apply (held_class_list_overrides_the_settings env_unset
           [LogPre; AddHeaderPost] (built two)).
  - reflexivity.
  - repeat constructor.
Defined.

Lemma instantiation_stops_witness :
  wrapped (set_wrapped Store (Some [LogPre; Incomplete; AddHeaderPost]) st0) =
  Some ([LogPre] ++ Incomplete :: [AddHeaderPost]) /\
  Forall instantiable [LogPre] /\
  abstractmethods Store Incomplete <> [] /\
  exists objs st',
    comprehension (instantiate Store) [LogPre]
      (set_wrapped Store (Some [LogPre; Incomplete; AddHeaderPost]) st0) =
    (Ok objs, st') /\
    initialize_middlewares Store (env with_incomplete)
      (set_wrapped Store (Some [LogPre; Incomplete; AddHeaderPost]) st0) =
    (Raise (TypeError (cls_name Incomplete)), st') /\
    trace st' =
    trace (set_wrapped Store (Some [LogPre; Incomplete; AddHeaderPost]) st0) ++
    map inst_event objs /\
    allocated st' =
    allocated (set_wrapped Store (Some [LogPre; Incomplete; AddHeaderPost]) st0)
    + length [LogPre] /\
    middlewares st' =
    middlewares
      (set_wrapped Store (Some [LogPre; Incomplete; AddHeaderPost]) st0).
Proof.
  split; [reflexivity |]. split; [repeat constructor |].
  split; [discriminate |].
  apply (instantiation_stops_at_the_first_abstract_class
           (env with_incomplete) [LogPre] [AddHeaderPost] Incomplete
           (set_wrapped Store (Some [LogPre; Incomplete; AddHeaderPost]) st0)).
  - reflexivity.
  - repeat constructor.
  - discriminate.
Defined.

Lemma class_outside_the_contract_witness :
  cls_abc Duck = false /\
  cls_process_request Duck = None /\
  init_returns Duck /\
  (forall st, exists st',
      instantiate Store Duck st =
      (Ok {| inst_class := Duck; inst_self := allocated st |}, st')) /\
  for_each_process_request Store [obj LogPre 0; obj Duck 1; obj AddHeaderPost 2]
    1 st0 =
  (Raise (AttributeError "process_request"),
   snd (for_each_process_request Store [obj LogPre 0] 1 st0)).
Proof.
  split; [reflexivity |]. split; [reflexivity |].
  split; [intros self s; reflexivity |].
  pose proof (class_outside_the_contract_fails_only_when_called Duck
                eq_refl eq_refl (fun _ _ => eq_refl)) as [Hmade Hcalled].
  split; [exact Hmade |].
  apply (Hcalled 1 1 [obj LogPre 0] [obj AddHeaderPost 2] st0).
  reflexivity.
Defined.

Lemma successful_request_witness :
  DRF_MIDDLEWARE_CLASSES Store (env two) = Some two /\
  resolves_to (env two) two [LogPre; AddHeaderPost] /\
  Forall instantiable [LogPre; AddHeaderPost] /\
  Forall pre_hook_returns [LogPre; AddHeaderPost] /\
  post_hook_returns AddHeaderPost /\
  registry_consistent [LogPre; AddHeaderPost] st0 /\
  exists front_objs m response finalized final st',
    one_request Store (env two) (handle_and_finalize Store (env two)) 1 st0 =
    (Ok final, st') /\
    map inst_class (front_objs ++ [m]) = [LogPre; AddHeaderPost] /\
    middlewares st' = Some (front_objs ++ [m]) /\
    trace st' =
    trace st0 ++ import_events two st0 ++
    map inst_event (front_objs ++ [m]) ++
    [EvSuperInitial 1] ++
    map (pre_event 1) (front_objs ++ [m]) ++
    [EvHandler 1; EvSuperFinalize 1 response; post_event 1 finalized m] /\
    let entered :=
      store_after_pre_hooks (front_objs ++ [m]) 1
        (snd (super_initial Store (env two) 1
                (store_after_inits (front_objs ++ [m]) (store st0)))) in
    let handled := snd (handler Store (env two) 1 entered) in
    let finalised :=
      snd (super_finalize_response Store (env two) 1 response handled) in
    fst (handler Store (env two) 1 entered) = Ok response /\
    fst (super_finalize_response Store (env two) 1 response handled) =
    Ok finalized /\
    exists g,
      lookup_process_response Store (inst_class m) = Some g /\
      g (inst_self m) 1 finalized finalised = (Ok final, store st').
Proof.
  assert (Hpre : Forall pre_hook_returns [LogPre; AddHeaderPost]).
  { repeat constructor;
      (eexists; split; [reflexivity | intros; eexists; reflexivity]). }
  assert (Hpost : post_hook_returns AddHeaderPost).
  { eexists. split; [reflexivity | intros; eexists; reflexivity]. }
  split; [reflexivity |]. split; [repeat constructor |].
  split; [repeat constructor |]. split; [exact Hpre |].
  split; [exact Hpost |]. split; [left; reflexivity |].
  apply (successful_request_runs_the_whole_lifecycle (env two) two
           [LogPre; AddHeaderPost] [LogPre] AddHeaderPost st0 1).
  - reflexivity.
  - repeat constructor.
  - reflexivity.
  - repeat constructor.
  - exact Hpre.
  - exact Hpost.
  - reflexivity.
  - returns.
  - returns.
  - left. reflexivity.
Defined.


End FurtherRuns.
